(** * ARtest.py: cost of capital, METR and EATR under Arkansas tax scenarios

    A shallow embedding of [src/ARtest.py].

    - Python floats are idealised as real numbers ([R]): there is no
      rounding, and no infinity or NaN.  The integer depreciation lives
      enter the formulas through the same arithmetic and are stored as the
      reals they denote.  Division is the division of floats: a zero
      divisor raises [ZeroDivisionError].  (A NumPy scalar divided by zero
      gives an infinity instead; the statements below that depend on a
      quotient assume that its divisor is not zero.)
    - Python dictionaries are objects in a store: a dictionary is an
      insertion-ordered association list, a name holds a location, and
      [d[k] = v] updates the object at that location, so that aliasing and
      mutation are visible.
    - A function that can raise is a computation in a state-and-exception
      monad; the state also carries standard output and a trace of the
      calls to [compute_outputs].
    - The functions of the external package [ccc] are an interface
      ([CCC]) of pure functions; the script fixes how they are called, not
      what they compute.  Where a statement depends on what they compute,
      it assumes [ccc_documented].
    - The pandas operations of the reporting pipeline are modelled on
      column-major tables from the specification's account of the
      tables.
    - Lines 11-13 create two objects of the library that nothing uses, and
      lines 152-159 draw the chart; neither is modelled. *)

From Stdlib Require Import Reals Lra Lia String.
From stdpp Require Import base list strings.

Local Open Scope string_scope.
Local Open Scope list_scope.
Local Open Scope R_scope.

(** * The program *)

(** ** Dictionaries *)

(** A Python [dict] with string keys: insertion-ordered, keys unique. *)
Definition dict (V : Type) : Type := list (string * V).

(** [d[k]] as an expression; [None] stands for [KeyError]. *)
Fixpoint dict_get {V : Type} (d : dict V) (k : string) : option V :=
  match d with
  | [] => None
  | (k', v) :: d' => if String.eqb k k' then Some v else dict_get d' k
  end.

(** [d[k] = v]: an existing key keeps its position, a new key is appended. *)
Fixpoint dict_set {V : Type} (d : dict V) (k : string) (v : V) : dict V :=
  match d with
  | [] => [(k, v)]
  | (k', v') :: d' =>
      if String.eqb k k' then (k', v) :: d' else (k', v') :: dict_set d' k v
  end.

(** [list(d.keys())] *)
Definition dict_keys {V : Type} (d : dict V) : list string := map fst d.

(** [k in d] *)
Definition has_key {V : Type} (d : dict V) (k : string) : bool :=
  match dict_get d k with Some _ => true | None => false end.

(** ** The store and the monad *)

(** The arguments of one call of [compute_outputs]; the two dictionaries
    are passed by reference. *)
Record call : Type := mkCall {
  call_u_s : R;
  call_bonus_s : nat;
  call_franchise_tax_rate : R;
  call_tau_GR : R;
  call_inv_tax_credit : nat
}.

(** The store holds the dictionaries by the type of their values:
    [nums] the dictionaries of numbers, [strs] those of strings, [refs]
    those of references to dictionaries of numbers.  A location is an index
    into its list; allocation appends. *)
Record state : Type := mkState {
  nums : list (dict R);
  strs : list (dict string);
  refs : list (dict nat);
  stdout : list string;
  calls : list call
}.

Definition empty_state : state := mkState [] [] [] [] [].

(** What a computation can raise.  [BadRef] is not a Python exception: it
    is the result of dereferencing a location outside the store, which no
    Python name can hold. *)
Inductive exn : Type :=
| KeyError (k : string)
| AssertionError
| ZeroDivisionError
| ValueError
| BadRef.

Definition M (A : Type) : Type := state -> (exn + A) * state.

Definition ret {A : Type} (a : A) : M A := fun s => (inr a, s).

Definition bind {A B : Type} (m : M A) (f : A -> M B) : M B :=
  fun s => match m s with
           | (inl e, s') => (inl e, s')
           | (inr a, s') => f a s'
           end.

Definition raise {A : Type} (e : exn) : M A := fun s => (inl e, s).

Declare Scope py_scope.
Delimit Scope py_scope with py.
Notation "x <- m ;; k" := (bind m (fun x => k))
  (at level 100, m at next level, right associativity) : py_scope.
Notation "m ;;; k" := (bind m (fun _ => k))
  (at level 100, right associativity) : py_scope.
Local Open Scope py_scope.

(** [{...}] with number values: a new dictionary object. *)
Definition new_num (d : dict R) : M nat :=
  fun s => (inr (length (nums s)),
            mkState (nums s ++ [d]) (strs s) (refs s) (stdout s) (calls s)).

(** [{...}] with string values. *)
Definition new_str (d : dict string) : M nat :=
  fun s => (inr (length (strs s)),
            mkState (nums s) (strs s ++ [d]) (refs s) (stdout s) (calls s)).

(** [{...}] whose values are dictionaries. *)
Definition new_ref (d : dict nat) : M nat :=
  fun s => (inr (length (refs s)),
            mkState (nums s) (strs s) (refs s ++ [d]) (stdout s) (calls s)).

(** [l[k]] for a dictionary of numbers. *)
Definition num_getitem (l : nat) (k : string) : M R :=
  fun s => match nums s !! l with
           | None => (inl BadRef, s)
           | Some d => match dict_get d k with
                       | None => (inl (KeyError k), s)
                       | Some v => (inr v, s)
                       end
           end.

(** [l[k]] for a dictionary of strings. *)
Definition str_getitem (l : nat) (k : string) : M string :=
  fun s => match strs s !! l with
           | None => (inl BadRef, s)
           | Some d => match dict_get d k with
                       | None => (inl (KeyError k), s)
                       | Some v => (inr v, s)
                       end
           end.

(** [l[k]] for a dictionary of dictionaries: the inner object's location. *)
Definition ref_getitem (l : nat) (k : string) : M nat :=
  fun s => match refs s !! l with
           | None => (inl BadRef, s)
           | Some d => match dict_get d k with
                       | None => (inl (KeyError k), s)
                       | Some v => (inr v, s)
                       end
           end.

(** [l[k] = v] for a dictionary of numbers: the object at [l] is updated in
    place, whoever else holds [l] sees it. *)
Definition num_setitem (l : nat) (k : string) (v : R) : M unit :=
  fun s => match nums s !! l with
           | None => (inl BadRef, s)
           | Some d =>
               (inr tt,
                mkState (<[l := dict_set d k v]> (nums s)) (strs s) (refs s)
                        (stdout s) (calls s))
           end.

(** [l.items()], as the list the loop walks through. *)
Definition num_items (l : nat) : M (list (string * R)) :=
  fun s => match nums s !! l with
           | None => (inl BadRef, s)
           | Some d => (inr d, s)
           end.

(** [print(msg)] *)
Definition print (msg : string) : M unit :=
  fun s => (inr tt,
            mkState (nums s) (strs s) (refs s) (stdout s ++ [msg]) (calls s)).

(** Entering [compute_outputs] is recorded in the trace. *)
Definition trace_call (c : call) : M unit :=
  fun s => (inr tt,
            mkState (nums s) (strs s) (refs s) (stdout s) (calls s ++ [c])).

(** [for x in xs: body(x)] *)
Fixpoint for_each {A : Type} (xs : list A) (body : A -> M unit) : M unit :=
  match xs with
  | [] => ret tt
  | x :: xs' => body x ;;; for_each xs' body
  end.

(** ** Arithmetic that can raise *)

(** [x / y] on floats: a zero divisor raises. *)
Definition truediv (x y : R) : exn + R :=
  if Req_dec_T y 0 then inl ZeroDivisionError else inr (x / y).

(** An expression that can raise, evaluated in the course of a
    computation: the store is not touched. *)
Definition lift {A : Type} (x : exn + A) : M A := fun s => (x, s).

(** ** The cost of capital with state taxes (lines 17-46) *)

(** The expression of lines 40-44 holds two quotients; the inner one is
    evaluated first. *)
Definition eq_coc_state
    (delta z_f z_s w u_f u_s tau_GR inv_tax_credit pi r : R) : exn + R :=
  match truediv (r - pi + delta) (1 - u_f - u_s + u_f * u_s) with
  | inl e => inl e
  | inr q =>
      match
        truediv
          (q * (1 - inv_tax_credit - u_f * z_f - u_s * z_s + u_f * u_s * z_s)
           + w)
          (1 - tau_GR)
      with
      | inl e => inl e
      | inr n => let rho := n - delta in inr rho
      end
  end.

(** ** The external library *)

(** The six functions of the package [ccc] that the script calls, with the
    arities of the calls. *)
Class CCC : Type := {
  calc_r : R -> R -> R -> R -> R -> R -> R -> R -> R;
  calc_r_prime : R -> R -> R -> R -> R;
  dbsl : R -> R -> R -> R -> R;
  sl : R -> R -> R -> R;
  eq_metr : R -> R -> R -> R;
  eq_eatr : R -> R -> R -> R -> R
}.

(** ** Module-level names read by [compute_outputs] *)

(** The global names the body of [compute_outputs] reads: scalars by value,
    dictionaries by location. *)
Record globals : Type := mkGlobals {
  inflation_rate : R;
  nominal_int_rate : R;
  fraction_financed_w_debt : R;
  federal_bonus_depreciation : nat;
  depreciation_rates : nat;
  depreciation_lives : nat;
  depreciation_methods : nat;
  E : R;
  profit_rate : R;
  int_haircut : R;
  u_f : R
}.

(** ** The scenario evaluator (lines 77-117) *)

Section Evaluator.

Context {L : CCC}.

(** The depreciation-schedule selector, lines 97-105: the [if]/[elif]/[else]
    of the loop body, returning the two names it binds, [(z_f, z_s)].
    [assert False] raises, as it does unless the interpreter is told to
    skip assertions. *)
Definition depreciation_pv (g : globals) (bonus_s : nat) (k : string) (r : R)
    : M (R * R) :=
  m <- str_getitem (depreciation_methods g) k ;;
  if String.eqb m "dbsl" then
    Y <- num_getitem (depreciation_lives g) k ;;
    b_f <- num_getitem (federal_bonus_depreciation g) k ;;
    let z_f := dbsl Y 2 b_f r in
    Y' <- num_getitem (depreciation_lives g) k ;;
    b_s <- num_getitem bonus_s k ;;
    let z_s := dbsl Y' 2 b_s r in
    ret (z_f, z_s)
  else
    m' <- str_getitem (depreciation_methods g) k ;;
    if String.eqb m' "sl" then
      Y <- num_getitem (depreciation_lives g) k ;;
      b_f <- num_getitem (federal_bonus_depreciation g) k ;;
      let z_f := sl Y b_f r in
      Y' <- num_getitem (depreciation_lives g) k ;;
      b_s <- num_getitem bonus_s k ;;
      let z_s := sl Y' b_s r in
      ret (z_f, z_s)
    else
      print "Please enter one of: dbsl, sl" ;;;
      raise AssertionError.

(** The body of the loop, lines 92-116, for the item [(k, v)]; [out_dict] is
    the local name of the function. *)
Definition loop_body (g : globals) (u_s : R) (bonus_s : nat)
    (franchise_tax_rate tau_GR : R) (inv_tax_credit : nat) (out_dict : nat)
    (item : string * R) : M unit :=
  let '(k, v) := item in
  let r := calc_r
             (u_f g + u_s - u_f g * u_s) (nominal_int_rate g)
             (inflation_rate g) (nominal_int_rate g)
             (fraction_financed_w_debt g) (int_haircut g) (E g) 0.0 in
  let r_prime := calc_r_prime
                   (nominal_int_rate g) (inflation_rate g)
                   (fraction_financed_w_debt g) (E g) in
  z <- depreciation_pv g bonus_s k r ;;
  let z_f := z.1 in
  let z_s := z.2 in
  delta <- num_getitem (depreciation_rates g) k ;;
  itc <- num_getitem inv_tax_credit k ;;
  rho <- lift (eq_coc_state
                 delta z_f z_s franchise_tax_rate (u_f g) u_s
                 tau_GR itc (inflation_rate g) r) ;;
  let metr := eq_metr rho r_prime (inflation_rate g) in
  let eatr := eq_eatr rho metr (profit_rate g)
                      (u_f g + u_s - u_f g * u_s) in
  d <- ref_getitem out_dict k ;;
  num_setitem d "rho" rho ;;;
  d <- ref_getitem out_dict k ;;
  num_setitem d "metr" metr ;;;
  d <- ref_getitem out_dict k ;;
  num_setitem d "eatr" eatr.

Definition compute_outputs (g : globals) (u_s : R) (bonus_s : nat)
    (franchise_tax_rate tau_GR : R) (inv_tax_credit : nat) : M nat :=
  trace_call (mkCall u_s bonus_s franchise_tax_rate tau_GR inv_tax_credit) ;;;
  d_machines <- new_num [] ;;
  d_buildings <- new_num [] ;;
  d_intangibles <- new_num [] ;;
  out_dict <- new_ref [("machines", d_machines); ("buildings", d_buildings);
                       ("intangibles", d_intangibles)] ;;
  items <- num_items (depreciation_rates g) ;;
  for_each items
           (loop_body g u_s bonus_s franchise_tax_rate tau_GR inv_tax_credit
                      out_dict) ;;;
  ret out_dict.

(** The refactoring that claim C9 compares with: the two discount rates are
    computed once, before the loop, and the body takes them as they are. *)
Definition loop_body_hoisted (g : globals) (u_s : R) (bonus_s : nat)
    (franchise_tax_rate tau_GR : R) (inv_tax_credit : nat) (out_dict : nat)
    (r r_prime : R) (item : string * R) : M unit :=
  let '(k, v) := item in
  z <- depreciation_pv g bonus_s k r ;;
  let z_f := z.1 in
  let z_s := z.2 in
  delta <- num_getitem (depreciation_rates g) k ;;
  itc <- num_getitem inv_tax_credit k ;;
  rho <- lift (eq_coc_state
                 delta z_f z_s franchise_tax_rate (u_f g) u_s
                 tau_GR itc (inflation_rate g) r) ;;
  let metr := eq_metr rho r_prime (inflation_rate g) in
  let eatr := eq_eatr rho metr (profit_rate g)
                      (u_f g + u_s - u_f g * u_s) in
  d <- ref_getitem out_dict k ;;
  num_setitem d "rho" rho ;;;
  d <- ref_getitem out_dict k ;;
  num_setitem d "metr" metr ;;;
  d <- ref_getitem out_dict k ;;
  num_setitem d "eatr" eatr.

Definition compute_outputs_hoisted (g : globals) (u_s : R) (bonus_s : nat)
    (franchise_tax_rate tau_GR : R) (inv_tax_credit : nat) : M nat :=
  trace_call (mkCall u_s bonus_s franchise_tax_rate tau_GR inv_tax_credit) ;;;
  d_machines <- new_num [] ;;
  d_buildings <- new_num [] ;;
  d_intangibles <- new_num [] ;;
  out_dict <- new_ref [("machines", d_machines); ("buildings", d_buildings);
                       ("intangibles", d_intangibles)] ;;
  let r := calc_r
             (u_f g + u_s - u_f g * u_s) (nominal_int_rate g)
             (inflation_rate g) (nominal_int_rate g)
             (fraction_financed_w_debt g) (int_haircut g) (E g) 0.0 in
  let r_prime := calc_r_prime
                   (nominal_int_rate g) (inflation_rate g)
                   (fraction_financed_w_debt g) (E g) in
  items <- num_items (depreciation_rates g) ;;
  for_each items
           (loop_body_hoisted g u_s bonus_s franchise_tax_rate tau_GR
                              inv_tax_credit out_dict r r_prime) ;;;
  ret out_dict.

(** Reading a result back: the dictionary of dictionaries that a returned
    location denotes in a store. *)
Definition deref (s : state) (d : dict nat) : option (dict (dict R)) :=
  mapM (fun kl : string * nat =>
          match nums s !! kl.2 with
          | Some inner => Some (kl.1, inner)
          | None => None
          end) d.

Definition outputs_at (s : state) (o : nat) : option (dict (dict R)) :=
  match refs s !! o with
  | Some d => deref s d
  | None => None
  end.

(** [out[k][metric]] for a dictionary of dictionaries. *)
Definition output (out : dict (dict R)) (k metric : string) : option R :=
  match dict_get out k with
  | Some inner => dict_get inner metric
  | None => None
  end.

(** A call and its result read back: the value of
    [compute_outputs(...)] as a dictionary of dictionaries, when the call
    returns. *)
Definition evaluate (g : globals) (u_s : R) (bonus_s : nat)
    (franchise_tax_rate tau_GR : R) (inv_tax_credit : nat) (s : state)
    : option (dict (dict R)) :=
  match compute_outputs g u_s bonus_s franchise_tax_rate tau_GR
                        inv_tax_credit s with
  | (inr out, s') => outputs_at s' out
  | (inl _, _) => None
  end.

End Evaluator.

(** ** Tables (the pandas operations of lines 121-149) *)

Module pd.

(** A cell of a table: a number, a string, a position of a default index,
    or a missing value. *)
Inductive cell : Type :=
| Num (x : R)
| Str (s : string)
| Pos (n : nat)
| NaN.

(** A [DataFrame], column-major: the row labels and the named columns, each
    column as long as the index. *)
Record DataFrame : Type := mkDataFrame {
  index : list cell;
  columns : list (string * list cell)
}.

Definition n_rows (df : DataFrame) : nat := length (index df).

Definition column_names (df : DataFrame) : list string :=
  map fst (columns df).

Definition mem_string (k : string) (l : list string) : bool :=
  existsb (String.eqb k) l.

(** Keys in order of first appearance. *)
Definition union_keys (ls : list (list string)) : list string :=
  foldl (fun acc l =>
           foldl (fun acc' k => if mem_string k acc' then acc' else acc' ++ [k])
                 acc l)
        [] ls.

Definition default_index (n : nat) : list cell := map Pos (seq 0 n).

(** Modelled from the spec: [pd.DataFrame(d)], for a dictionary of
    dictionaries of numbers, belongs to the package pandas, outside this
    repository.  Section 3: rows = output metric name, columns = asset
    type.  The outer keys become the columns, the inner keys the row
    labels, a missing entry is a missing value. *)
Definition of_dict (d : dict (dict R)) : DataFrame :=
  let idx := union_keys (map (fun kv => dict_keys kv.2) d) in
  mkDataFrame
    (map Str idx)
    (map (fun kv : string * dict R =>
            (kv.1,
             map (fun i => match dict_get kv.2 i with
                           | Some x => Num x
                           | None => NaN
                           end) idx)) d).

(** Modelled from the spec: [df[name] = value], with a scalar, belongs to
    the package pandas, outside this repository.  Section 2: each result
    table is labeled with a policy name.  The column holds the value in
    every row; a new column goes last. *)
Definition set_column (df : DataFrame) (name : string) (v : cell)
    : DataFrame :=
  let col := replicate (n_rows df) v in
  mkDataFrame
    (index df)
    (if mem_string name (column_names df)
     then map (fun c : string * list cell =>
                 if String.eqb c.1 name then (c.1, col) else c)
              (columns df)
     else columns df ++ [(name, col)]).

Definition column_or_missing (df : DataFrame) (name : string) : list cell :=
  match dict_get (columns df) name with
  | Some col => col
  | None => replicate (n_rows df) NaN
  end.

(** Modelled from the spec: [pd.concat(frames)] belongs to the package
    pandas, outside this repository.  Section 2: the three tables are
    stacked vertically.  Rows follow each other in the order of the frames,
    row labels are kept, the columns are those of all frames in order of
    first appearance. *)
Definition concat (frames : list DataFrame) : DataFrame :=
  let names := union_keys (map column_names frames) in
  mkDataFrame
    (List.concat (map index frames))
    (map (fun name =>
            (name,
             List.concat (map (fun df => column_or_missing df name) frames)))
         names).

(** Modelled from the spec: [df.reset_index()] belongs to the package
    pandas, outside this repository.  Section 3: the long form has a column
    for the output variable, which before this step is the row label.  The
    row labels become the first column, named [index], and the rows are
    numbered from 0; pandas refuses when a column [index] exists. *)
Definition reset_index (df : DataFrame) : M DataFrame :=
  if mem_string "index" (column_names df)
  then raise ValueError
  else ret (mkDataFrame (default_index (n_rows df))
                        (("index", index df) :: columns df)).

(** Modelled from the spec: [df.rename(columns={old: new})] belongs to
    the package pandas, outside this repository.  Every column named [old]
    is renamed. *)
Definition rename (df : DataFrame) (old new : string) : DataFrame :=
  mkDataFrame
    (index df)
    (map (fun c : string * list cell =>
            if String.eqb c.1 old then (new, c.2) else c)
         (columns df)).

(** Modelled from the spec: [pd.melt(df, id_vars, var_name)] belongs to
    the package pandas, outside this repository.  Section 3: the long form
    has the columns Policy, output_var, asset_type, value; section 2: one
    row per policy, output metric and asset type.  Every column that is not
    an identifier is a value column; for each value column in turn, each
    row of [df] gives one row holding the row's identifiers, the column's
    name and the row's cell. *)
Definition melt (df : DataFrame) (id_vars : list string) (var_name : string)
    : M DataFrame :=
  match List.find (fun v => negb (mem_string v (column_names df))) id_vars with
  | Some v => raise (KeyError v)
  | None =>
      let value_vars :=
        List.filter (fun c => negb (mem_string c id_vars)) (column_names df) in
      let n := n_rows df in
      ret (mkDataFrame
             (default_index (n * length value_vars))
             (map (fun v =>
                     (v, List.concat
                           (map (fun _ => column_or_missing df v) value_vars)))
                  id_vars
              ++ [(var_name,
                   List.concat (map (fun c => replicate n (Str c)) value_vars));
                  ("value",
                   List.concat
                     (map (fun c => column_or_missing df c) value_vars))]))
  end.

(** The cells of one row, by column name. *)
Definition row (df : DataFrame) (i : nat) : list (string * option cell) :=
  map (fun c : string * list cell => (c.1, c.2 !! i)) (columns df).

End pd.

(** ** The script (lines 50-69 and 120-149) *)

(** The module-level names: those [compute_outputs] reads as globals, and
    those the script passes to it as arguments. *)
Record parameters : Type := mkParameters {
  globals_of :> globals;
  u_s : R;
  franchise_tax_rate : R;
  tau_GR : R;
  inv_tax_credit_s : nat;
  bonus_s : nat
}.

(** Lines 50-69: the model parameters.  Each dictionary display creates an
    object, in the order of the lines. *)
Definition define_parameters : M parameters :=
  let inflation_rate := 0.02 in
  let nominal_int_rate := 0.06 in
  let fraction_financed_w_debt := 0.0 in
  federal_bonus_depreciation <-
    new_num [("machines", 0.4); ("buildings", 0.0); ("intangibles", 0.4)] ;;
  depreciation_rates <-
    new_num [("machines", 0.1031); ("buildings", 0.0314);
             ("intangibles", 0.33)] ;;
  depreciation_lives <-
    new_num [("machines", 7); ("buildings", 39); ("intangibles", 3)] ;;
  depreciation_methods <-
    new_str [("machines", "dbsl"); ("buildings", "sl");
             ("intangibles", "sl")] ;;
  let E := 0.06 in
  let profit_rate := 0.2 in
  let int_haircut := 0.0 in
  let u_f := 0.21 in
  let u_s := 0.043 in
  let franchise_tax_rate := 0.003 in
  let tau_GR := 0.00 in
  inv_tax_credit_s <-
    new_num [("machines", 0.015); ("buildings", 0.025);
             ("intangibles", 0.01)] ;;
  bonus_s <-
    new_num [("machines", 0.0); ("buildings", 0.0); ("intangibles", 0.0)] ;;
  ret (mkParameters
         (mkGlobals inflation_rate nominal_int_rate fraction_financed_w_debt
                    federal_bonus_depreciation depreciation_rates
                    depreciation_lives depreciation_methods
                    E profit_rate int_haircut u_f)
         u_s franchise_tax_rate tau_GR inv_tax_credit_s bonus_s).

Section Script.

Context {L : CCC}.

(** [pd.DataFrame(out)] for the dictionary object at [out]: the table is
    built from what the store holds at that moment. *)
Definition DataFrame (out : nat) : M pd.DataFrame :=
  fun s => match outputs_at s out with
           | Some d => (inr (pd.of_dict d), s)
           | None => (inl BadRef, s)
           end.

(** Lines 120-139: the three scenarios. *)
Definition scenarios (p : parameters)
    : M (pd.DataFrame * pd.DataFrame * pd.DataFrame) :=
  (* Current law *)
  out <- compute_outputs p (u_s p) (bonus_s p) (franchise_tax_rate p)
                         (tau_GR p) (inv_tax_credit_s p) ;;
  base_df <- DataFrame out ;;
  (* Lower AR CIT rate to 3.5% *)
  let u_s_ref1 := 0.035 in
  out <- compute_outputs p u_s_ref1 (bonus_s p) (franchise_tax_rate p)
                         (tau_GR p) (inv_tax_credit_s p) ;;
  ar_citcut_df <- DataFrame out ;;
  (* Remove AR franchise tax *)
  let franchise_tax_rate_ref2 := 0.000 in
  out <- compute_outputs p (u_s p) (bonus_s p) franchise_tax_rate_ref2
                         (tau_GR p) (inv_tax_credit_s p) ;;
  ar_frtaxrmv_df <- DataFrame out ;;
  ret (base_df, ar_citcut_df, ar_frtaxrmv_df).

(** Lines 142-149: policy names, one table, long form. *)
Definition report (base_df ar_citcut_df ar_frtaxrmv_df : pd.DataFrame)
    : M pd.DataFrame :=
  let base_df := pd.set_column base_df "Policy" (pd.Str "Current Law") in
  let ar_citcut_df :=
    pd.set_column ar_citcut_df "Policy"
                  (pd.Str "Lower AR CIT rate to 3.5%") in
  let ar_frtaxrmv_df :=
    pd.set_column ar_frtaxrmv_df "Policy"
                  (pd.Str "Remove AR franchise tax") in
  let df := pd.concat [base_df; ar_citcut_df; ar_frtaxrmv_df] in
  df <- pd.reset_index df ;;
  let df := pd.rename df "index" "output_var" in
  df <- pd.melt df ["Policy"; "output_var"] "asset_type" ;;
  ret df.

Definition main : M pd.DataFrame :=
  p <- define_parameters ;;
  dfs <- scenarios p ;;
  report dfs.1.1 dfs.1.2 dfs.2.

End Script.

(** The store and the names after lines 50-69. *)
Definition script_state : state := (define_parameters empty_state).2.

Definition script_parameters : parameters :=
  mkParameters
    (mkGlobals 0.02 0.06 0.0 0%nat 1%nat 2%nat 0%nat 0.06 0.2 0.0 0.21)
    0.043 0.003 0.00 3%nat 4%nat.

(** ** The formulas of the library *)

(** Modelled from the spec: [ccc.calcfunctions.dbsl] belongs to the package
    ccc, outside this repository.  Section 6: life, multiplier, bonus rate,
    discount rate -> PV; glossary: a declining-balance rate is applied
    until straight-line depreciation on the remaining basis would yield
    larger deductions, then the method switches; the bonus is deducted at
    once.  In continuous time, as the package documents it: the rate is
    [beta = b / Y], the switch is at [Y_star = Y (1 - 1/b)]. *)
Definition dbsl_formula (Y b bonus r : R) : R :=
  let beta := b / Y in
  let Y_star := Y * (1 - (1 / b)) in
  bonus +
  (1 - bonus) *
  (((beta / (beta + r)) * (1 - exp (-1 * (beta + r) * Y_star))) +
   ((exp (-1 * beta * Y_star) / ((Y - Y_star) * r)) *
    (exp (-1 * r * Y_star) - exp (-1 * r * Y)))).

(** Modelled from the spec: [ccc.calcfunctions.sl] belongs to the package
    ccc, outside this repository.  Section 6: life, bonus rate, discount
    rate -> PV.  Deductions at the constant rate [1 / Y] over the life,
    after the bonus. *)
Definition sl_formula (Y bonus r : R) : R :=
  bonus + ((1 - bonus) * ((1 - exp (-1 * r * Y)) / (r * Y))).

(** Modelled from the spec: [ccc.calcfunctions.eq_metr] belongs to the
    package ccc, outside this repository.  Section 6: rho, r', inflation ->
    metr; glossary: the share of the cost of capital attributable to
    taxation, that is, what of rho is not the real after-tax return. *)
Definition eq_metr_formula (rho r_prime pi : R) : R :=
  (rho - (r_prime - pi)) / rho.

(** Modelled from the spec: [ccc.calcfunctions.eq_eatr] belongs to the
    package ccc, outside this repository.  Section 6: rho, metr, profit
    rate, combined statutory rate -> eatr.  The statutory rate on the
    profit above the cost of capital, the marginal rate on the rest. *)
Definition eq_eatr_formula (rho metr p u : R) : R :=
  ((p - rho) / p) * u + (rho / p) * metr.

(** Modelled from the spec: [ccc.paramfunctions.calc_r] belongs to the
    package ccc, outside this repository.  Section 6: combined statutory
    rate, nominal rate, inflation, nominal rate again, debt fraction,
    interest haircut, expected equity return, a fixed zero parameter ->
    discount rate.  The debt share at the interest rate net of its
    deduction, the equity share at the nominal return on equity net of the
    allowance for corporate equity. *)
Definition calc_r_formula
    (u nominal_int_rate inflation_rate ace_int_rate f int_haircut E ace : R)
    : R :=
  f * (nominal_int_rate * (1 - (1 - int_haircut) * u)) +
  (1 - f) * (E + inflation_rate - ace_int_rate * ace).

(** Modelled from the spec: [ccc.paramfunctions.calc_r_prime] belongs to
    the package ccc, outside this repository.  Section 6: nominal rate,
    inflation, debt fraction, expected equity return -> r'.  The return to
    savers: the debt share at the interest rate, the equity share at the
    nominal return on equity. *)
Definition calc_r_prime_formula (nominal_int_rate inflation_rate f E : R)
    : R :=
  f * nominal_int_rate + (1 - f) * (E + inflation_rate).

(** The library with these formulas. *)
Definition ccc_formulas : CCC := {|
  calc_r := calc_r_formula;
  calc_r_prime := calc_r_prime_formula;
  dbsl := dbsl_formula;
  sl := sl_formula;
  eq_metr := eq_metr_formula;
  eq_eatr := eq_eatr_formula
|}.

(** Modelled from the spec: what the comparisons of scenarios take from
    the package ccc, outside this repository: for an all-equity investment
    without allowance for corporate equity both discount rates are the
    nominal return on equity; the marginal effective tax rate and the two
    present values of depreciation deductions are the formulas above. *)
Record ccc_documented (L : CCC) : Prop := mkDocumented {
  calc_r_equity :
    forall u i p a h e, calc_r u i p a 0 h e 0 = e + p;
  calc_r_prime_equity :
    forall i p e, calc_r_prime i p 0 e = e + p;
  eq_metr_documented :
    forall rho r_prime p,
      eq_metr rho r_prime p = eq_metr_formula rho r_prime p;
  dbsl_documented :
    forall Y b bonus r, dbsl Y b bonus r = dbsl_formula Y b bonus r;
  sl_documented :
    forall Y bonus r, sl Y bonus r = sl_formula Y bonus r
}.

(** * Notions for the statements *)

(** ** Stores, outcomes and triples *)

Definition asset_types : list string :=
  ["machines"; "buildings"; "intangibles"].

(** [l[k]] read off a store, when the object exists and has the key. *)
Definition store_get (s : state) (l : nat) (k : string) : option R :=
  match nums s !! l with
  | Some d => dict_get d k
  | None => None
  end.

(** The locations of the three inner dictionaries of [out_dict], allocated
    in a row from [n]. *)
Definition asset_refs (n : nat) : dict nat :=
  [("machines", n); ("buildings", S n); ("intangibles", S (S n))].

(** The position of an asset type among the three. *)
Definition asset_index (k : string) : option nat :=
  if String.eqb k "machines" then Some 0%nat
  else if String.eqb k "buildings" then Some 1%nat
  else if String.eqb k "intangibles" then Some 2%nat
  else None.

(** The store in the course of a call entered in [s]: the three inner
    dictionaries [ds] and [out_dict] have been allocated, [out] has been
    printed. *)
Definition running (s : state) (c : call) (ds : list (dict R))
    (out : list string) : state :=
  mkState (nums s ++ ds) (strs s)
          (refs s ++ [asset_refs (length (nums s))])
          (stdout s ++ out) (calls s ++ [c]).

(** What a call entered in [s] never gives up: what was in the store is
    still there, the three inner dictionaries follow, [out_dict] is the one
    new dictionary of dictionaries and holds their locations. *)
Definition in_call (s t : state) : Prop :=
  (exists ds, nums t = nums s ++ ds /\ length ds = 3%nat) /\
  strs t = strs s /\
  refs t = refs s ++ [asset_refs (length (nums s))].

(** A store that holds all the objects of [s], unchanged, and maybe more. *)
Definition extends (s t : state) : Prop :=
  nums s `prefix_of` nums t /\ strs s `prefix_of` strs t.

(** A triple for computations that can raise: from a store in [P], a
    result [a] comes with a store in [Q a], an exception with one in [X]. *)
Definition triple {A : Type} (P : state -> Prop) (m : M A)
    (Q : A -> state -> Prop) (X : state -> Prop) : Prop :=
  forall t, P t ->
    match m t with
    | (inr a, t') => Q a t'
    | (inl _, t') => X t'
    end.

(** The fixed attributes of an asset type, as the global dictionaries hold
    them. *)
Record asset_data : Type := mkAsset {
  a_method : string;
  a_delta : R;
  a_life : R;
  a_bonus_f : R
}.

(** The global dictionaries of [g] hold [a] for the asset type [k]. *)
Definition configured (s : state) (g : globals) (k : string) (a : asset_data)
    : Prop :=
  (exists dm, strs s !! depreciation_methods g = Some dm /\
              dict_get dm k = Some (a_method a)) /\
  store_get s (depreciation_rates g) k = Some (a_delta a) /\
  store_get s (depreciation_lives g) k = Some (a_life a) /\
  store_get s (federal_bonus_depreciation g) k = Some (a_bonus_f a).

Definition valid_method (m : string) : bool :=
  String.eqb m "dbsl" || String.eqb m "sl".

(** The cost of capital of section 4.2 of the specification, over the
    reals. *)
Definition cost_of_capital
    (delta z_f z_s w u_f u_s tau_GR itc pi r : R) : R :=
  (((r - pi + delta) / (1 - u_f - u_s + u_f * u_s)) *
   (1 - itc - u_f * z_f - u_s * z_s + u_f * u_s * z_s) + w) /
  (1 - tau_GR) - delta.

(** Neither quotient of [eq_coc_state] has a zero divisor. *)
Definition divisors_nonzero (u_f u_s tau_GR : R) : Prop :=
  1 - u_f - u_s + u_f * u_s <> 0 /\ 1 - tau_GR <> 0.

(** What one iteration of the loop comes to. *)
Inductive outcome : Type :=
| Done (rho metr eatr : R)
| Fails (e : exn) (printed : list string).

Definition results (rho metr eatr : R) : dict R :=
  [("rho", rho); ("metr", metr); ("eatr", eatr)].

(** The three assignments of lines 114-116 on an inner dictionary. *)
Definition filled (d : dict R) (rho metr eatr : R) : dict R :=
  dict_set (dict_set (dict_set d "rho" rho) "metr" metr) "eatr" eatr.

(** The three iterations in a row: the first that fails ends the call. *)
Definition run_assets (s : state) (c : call) (o1 o2 o3 : outcome)
    : (exn + nat) * state :=
  match o1 with
  | Fails e p => (inl e, running s c [[]; []; []] p)
  | Done r1 m1 e1 =>
      match o2 with
      | Fails e p => (inl e, running s c [results r1 m1 e1; []; []] p)
      | Done r2 m2 e2 =>
          match o3 with
          | Fails e p =>
              (inl e,
               running s c [results r1 m1 e1; results r2 m2 e2; []] p)
          | Done r3 m3 e3 =>
              (inr (length (refs s)),
               running s c [results r1 m1 e1; results r2 m2 e2;
                            results r3 m3 e3] [])
          end
      end
  end.

(** The row keys of a long-form table. *)
Definition long_keys (df : pd.DataFrame)
    : list (option pd.cell * option pd.cell * option pd.cell) :=
  map (fun i => (pd.column_or_missing df "Policy" !! i,
                 pd.column_or_missing df "output_var" !! i,
                 pd.column_or_missing df "asset_type" !! i))
      (seq 0 (pd.n_rows df)).

Section Outcomes.

Context {L : CCC}.

(** The two discount rates of a call, lines 92-96. *)
Definition discount_rate (g : globals) (u_s : R) : R :=
  calc_r (u_f g + u_s - u_f g * u_s) (nominal_int_rate g) (inflation_rate g)
         (nominal_int_rate g) (fraction_financed_w_debt g) (int_haircut g)
         (E g) 0.0.

Definition after_tax_rate (g : globals) : R :=
  calc_r_prime (nominal_int_rate g) (inflation_rate g)
               (fraction_financed_w_debt g) (E g).

(** The present value of depreciation deductions under a valid method. *)
Definition pv (m : string) (Y bonus r : R) : R :=
  if String.eqb m "dbsl" then dbsl Y 2 bonus r else sl Y bonus r.

(** The outcome of the iteration for the asset type [k] with the
    attributes [a], when the arguments hold the dictionaries [db] (state
    bonus depreciation) and [di] (state investment tax credit). *)
Definition outcome_of (g : globals) (u_s w tau : R) (k : string)
    (a : asset_data) (db di : dict R) : outcome :=
  if valid_method (a_method a) then
    match dict_get db k with
    | None => Fails (KeyError k) []
    | Some b_s =>
        match dict_get di k with
        | None => Fails (KeyError k) []
        | Some itc =>
            let r := discount_rate g u_s in
            match eq_coc_state
                    (a_delta a)
                    (pv (a_method a) (a_life a) (a_bonus_f a) r)
                    (pv (a_method a) (a_life a) b_s r)
                    w (u_f g) u_s tau itc (inflation_rate g) r
            with
            | inl e => Fails e []
            | inr rho =>
                let metr :=
                  eq_metr rho (after_tax_rate g) (inflation_rate g) in
                Done rho metr
                     (eq_eatr rho metr (profit_rate g)
                              (u_f g + u_s - u_f g * u_s))
            end
        end
    end
  else Fails AssertionError ["Please enter one of: dbsl, sl"].

(** The cost of capital, the marginal rate and the average rate that a
    call stores for an asset type with the attributes [a], the state bonus
    rate [b_s] and the state investment tax credit [itc], when no divisor
    is zero. *)
Definition rho_of (g : globals) (u_s w tau : R) (a : asset_data)
    (b_s itc : R) : R :=
  let r := discount_rate g u_s in
  cost_of_capital (a_delta a) (pv (a_method a) (a_life a) (a_bonus_f a) r)
                  (pv (a_method a) (a_life a) b_s r)
                  w (u_f g) u_s tau itc (inflation_rate g) r.

Definition metr_of (g : globals) (u_s w tau : R) (a : asset_data)
    (b_s itc : R) : R :=
  eq_metr (rho_of g u_s w tau a b_s itc) (after_tax_rate g)
          (inflation_rate g).

Definition eatr_of (g : globals) (u_s w tau : R) (a : asset_data)
    (b_s itc : R) : R :=
  eq_eatr (rho_of g u_s w tau a b_s itc) (metr_of g u_s w tau a b_s itc)
          (profit_rate g) (u_f g + u_s - u_f g * u_s).

End Outcomes.

(** ** The script's configuration and other stores *)

(** The attributes of the three asset types in the script, lines 54-58. *)
Definition machines : asset_data := mkAsset "dbsl" 0.1031 7 0.4.
Definition buildings : asset_data := mkAsset "sl" 0.0314 39 0.0.
Definition intangibles : asset_data := mkAsset "sl" 0.33 3 0.4.

(** The global dictionaries of [g] hold the three asset types, in the
    order of the script, with the attributes [a1], [a2], [a3]. *)
Record configuration (s : state) (g : globals) (a1 a2 a3 : asset_data)
    : Prop := mkConfiguration {
  rates_keys :
    exists dr, nums s !! depreciation_rates g = Some dr /\
               dict_keys dr = asset_types;
  machines_configured : configured s g "machines" a1;
  buildings_configured : configured s g "buildings" a2;
  intangibles_configured : configured s g "intangibles" a3
}.


(** The script's store with one more dictionary, which holds machines
    only. *)
Definition machines_only_state : state :=
  (new_num [("machines", 0.0)] script_state).2.



Definition policies : list string :=
  ["Current Law"; "Lower AR CIT rate to 3.5%"; "Remove AR franchise tax"].

Definition output_vars : list string := ["rho"; "metr"; "eatr"].

(** The keys of the long form: for each asset type, for each policy, for
    each output variable, one key. *)
Definition product_keys
    : list (option pd.cell * option pd.cell * option pd.cell) :=
  a ← asset_types; p ← policies; m ← output_vars;
  [(Some (pd.Str p), Some (pd.Str m), Some (pd.Str a))].

(** ** Notions for the further properties *)

(** Everything a call on the three asset types needs to return. *)
Record well_configured (s : state) (g : globals)
    (bonus_s inv_tax_credit : nat) (a1 a2 a3 : asset_data)
    (db di : dict R) : Prop := mkWellConfigured {
  wc_configuration : configuration s g a1 a2 a3;
  wc_bonus_s : nums s !! bonus_s = Some db;
  wc_inv_tax_credit : nums s !! inv_tax_credit = Some di;
  wc_methods :
    valid_method (a_method a1) = true /\
    valid_method (a_method a2) = true /\
    valid_method (a_method a3) = true;
  wc_keys :
    forall k, k ∈ asset_types ->
      has_key db k = true /\ has_key di k = true
}.

(** The six dictionaries a call reads are objects of the store. *)
Record objects (s : state) (g : globals) (bonus_s inv_tax_credit : nat)
    (d_rates d_lives d_fed d_bonus d_itc : dict R) (d_methods : dict string)
    : Prop := mkObjects {
  obj_rates : nums s !! depreciation_rates g = Some d_rates;
  obj_lives : nums s !! depreciation_lives g = Some d_lives;
  obj_methods : strs s !! depreciation_methods g = Some d_methods;
  obj_fed : nums s !! federal_bonus_depreciation g = Some d_fed;
  obj_bonus : nums s !! bonus_s = Some d_bonus;
  obj_itc : nums s !! inv_tax_credit = Some d_itc
}.

(** What the iteration for the key [k] needs to go through. *)
Definition processable (d_lives d_fed d_bonus d_itc : dict R)
    (d_methods : dict string) (k : string) : Prop :=
  k ∈ asset_types /\
  (exists m, dict_get d_methods k = Some m /\ (m = "dbsl" \/ m = "sl")) /\
  has_key d_lives k = true /\ has_key d_fed k = true /\
  has_key d_bonus k = true /\ has_key d_itc k = true.

(** A computation prints the diagnostic when it fails the assertion, and
    nothing otherwise. *)
Definition prints_on_assertion {A : Type} (m : M A) : Prop :=
  forall s,
    match m s with
    | (inl AssertionError, t) =>
        stdout t = stdout s ++ ["Please enter one of: dbsl, sl"]
    | (_, t) => stdout t = stdout s
    end.

(** A computation raises [KeyError] for the keys in [K] only. *)
Definition raises_key_in {A : Type} (K : list string) (m : M A) : Prop :=
  forall s k, (m s).1 = inl (KeyError k) -> k ∈ K.

Section StoredResults.
Context {L : CCC}.

(** The inner dictionary that a call stores for an asset type. *)
Definition asset_results (g : globals) (u_s w tau : R) (a : asset_data)
    (b_s itc : R) : dict R :=
  results (rho_of g u_s w tau a b_s itc) (metr_of g u_s w tau a b_s itc)
          (eatr_of g u_s w tau a b_s itc).

End StoredResults.

(** * Lemmas *)

(** ** The monad and the store *)

Lemma bind_inr {A B : Type} (m : M A) (f : A -> M B) (s s' : state) (a : A) :
  m s = (inr a, s') -> bind m f s = f a s'.
Proof. intros H. unfold bind. now rewrite H. Qed.

Lemma bind_inl {A B : Type} (m : M A) (f : A -> M B) (s s' : state)
    (e : exn) :
  m s = (inl e, s') -> bind m f s = (inl e, s').
Proof. intros H. unfold bind. now rewrite H. Qed.

Lemma bind_assoc {A B C : Type} (m : M A) (f : A -> M B) (h : B -> M C) s :
  bind (bind m f) h s = bind m (fun a => bind (f a) h) s.
Proof. unfold bind. destruct (m s) as [[e|a] t]; reflexivity. Qed.

(** ** Division *)

Lemma truediv_inr (x y : R) : y <> 0 -> truediv x y = inr (x / y).
Proof. intros H. unfold truediv. now destruct (Req_dec_T y 0). Qed.

Lemma truediv_inl (x y : R) : y = 0 -> truediv x y = inl ZeroDivisionError.
Proof. intros H. unfold truediv. now destruct (Req_dec_T y 0). Qed.

(** Where no divisor is zero [eq_coc_state] returns the cost of capital
    of the specification. *)
Lemma eq_coc_state_inr (delta z_f z_s w u_f u_s tau itc p r : R) :
  divisors_nonzero u_f u_s tau ->
  eq_coc_state delta z_f z_s w u_f u_s tau itc p r
  = inr (cost_of_capital delta z_f z_s w u_f u_s tau itc p r).
Proof.
  intros [HD Ht]. unfold eq_coc_state.
  now rewrite (truediv_inr _ _ HD), (truediv_inr _ _ Ht).
Qed.

(** Where a divisor is zero it raises. *)
Lemma eq_coc_state_inl (delta z_f z_s w u_f u_s tau itc p r : R) :
  ~ divisors_nonzero u_f u_s tau ->
  eq_coc_state delta z_f z_s w u_f u_s tau itc p r = inl ZeroDivisionError.
Proof.
  intros H. unfold eq_coc_state.
  destruct (Req_dec_T (1 - u_f - u_s + u_f * u_s) 0) as [HD|HD].
  - now rewrite (truediv_inl _ _ HD).
  - rewrite (truediv_inr _ _ HD).
    destruct (Req_dec_T (1 - tau) 0) as [Ht|Ht].
    + now rewrite (truediv_inl _ _ Ht).
    + destruct H. now split.
Qed.

Lemma eq_coc_state_cases (delta z_f z_s w u_f u_s tau itc p r : R) :
  (divisors_nonzero u_f u_s tau /\
   eq_coc_state delta z_f z_s w u_f u_s tau itc p r
   = inr (cost_of_capital delta z_f z_s w u_f u_s tau itc p r)) \/
  (~ divisors_nonzero u_f u_s tau /\
   eq_coc_state delta z_f z_s w u_f u_s tau itc p r
   = inl ZeroDivisionError).
Proof.
  destruct (Req_dec_T (1 - u_f - u_s + u_f * u_s) 0) as [HD|HD].
  - right. assert (H : ~ divisors_nonzero u_f u_s tau) by (intros [? ?]; auto).
    split; [exact H|now apply eq_coc_state_inl].
  - destruct (Req_dec_T (1 - tau) 0) as [Ht|Ht].
    + right.
      assert (H : ~ divisors_nonzero u_f u_s tau) by (intros [? ?]; auto).
      split; [exact H|now apply eq_coc_state_inl].
    + left. assert (H : divisors_nonzero u_f u_s tau) by now split.
      split; [exact H|now apply eq_coc_state_inr].
Qed.

(** ** The store *)

Lemma num_getitem_inr (s : state) (l : nat) (d : dict R) (k : string)
    (v : R) :
  nums s !! l = Some d -> dict_get d k = Some v ->
  num_getitem l k s = (inr v, s).
Proof. intros H1 H2. unfold num_getitem. now rewrite H1, H2. Qed.

Lemma num_getitem_KeyError (s : state) (l : nat) (d : dict R) (k : string) :
  nums s !! l = Some d -> dict_get d k = None ->
  num_getitem l k s = (inl (KeyError k), s).
Proof. intros H1 H2. unfold num_getitem. now rewrite H1, H2. Qed.

Lemma num_getitem_store (s : state) (l : nat) (k : string) (v : R) :
  store_get s l k = Some v -> num_getitem l k s = (inr v, s).
Proof.
  unfold store_get, num_getitem. destruct (nums s !! l); [|discriminate].
  now intros ->.
Qed.

Lemma str_getitem_inr (s : state) (l : nat) (d : dict string)
    (k v : string) :
  strs s !! l = Some d -> dict_get d k = Some v ->
  str_getitem l k s = (inr v, s).
Proof. intros H1 H2. unfold str_getitem. now rewrite H1, H2. Qed.

Lemma ref_getitem_inr (s : state) (l : nat) (d : dict nat) (k : string)
    (v : nat) :
  refs s !! l = Some d -> dict_get d k = Some v ->
  ref_getitem l k s = (inr v, s).
Proof. intros H1 H2. unfold ref_getitem. now rewrite H1, H2. Qed.

Lemma num_setitem_inr (s : state) (l : nat) (d : dict R) (k : string)
    (v : R) :
  nums s !! l = Some d ->
  num_setitem l k v s
  = (inr tt,
     mkState (<[l := dict_set d k v]> (nums s)) (strs s) (refs s)
             (stdout s) (calls s)).
Proof. intros H1. unfold num_setitem. now rewrite H1. Qed.

Lemma has_key_true {V : Type} (d : dict V) (k : string) :
  has_key d k = true -> exists v, dict_get d k = Some v.
Proof. unfold has_key. destruct (dict_get d k); [eauto|discriminate]. Qed.

Lemma has_key_false {V : Type} (d : dict V) (k : string) :
  has_key d k = false -> dict_get d k = None.
Proof. unfold has_key. now destruct (dict_get d k). Qed.

Lemma valid_method_true (m : string) :
  valid_method m = true <-> m = "dbsl" \/ m = "sl".
Proof.
  unfold valid_method. rewrite orb_true_iff, !String.eqb_eq. reflexivity.
Qed.

Lemma asset_types_cases (k : string) (P : string -> Prop) :
  k ∈ asset_types -> P "machines" -> P "buildings" -> P "intangibles" -> P k.
Proof.
  unfold asset_types. rewrite !elem_of_cons, elem_of_nil.
  intros [->|[->|[->|[]]]]; auto.
Qed.

Lemma asset_refs_get (n : nat) (k : string) :
  dict_get (asset_refs n) k = (fun i => (n + i)%nat) <$> asset_index k.
Proof.
  unfold asset_refs, asset_index. cbn.
  destruct (String.eqb k "machines"); [cbn; f_equal; lia|].
  destruct (String.eqb k "buildings"); [cbn; f_equal; lia|].
  destruct (String.eqb k "intangibles"); [cbn; f_equal; lia|]. reflexivity.
Qed.

Lemma asset_index_lt (k : string) (i : nat) :
  asset_index k = Some i -> (i < 3)%nat.
Proof.
  unfold asset_index. intros Hi.
  repeat match type of Hi with
         | (if ?c then _ else _) = _ => destruct c
         end; inversion Hi; lia.
Qed.

Lemma running_store_get s c ds out l k v :
  store_get s l k = Some v -> store_get (running s c ds out) l k = Some v.
Proof.
  unfold store_get. cbn. destruct (nums s !! l) eqn:H; [|discriminate].
  now rewrite (lookup_app_l_Some _ _ _ _ H).
Qed.

Lemma running_nums s c ds out l d :
  nums s !! l = Some d -> nums (running s c ds out) !! l = Some d.
Proof. intros H. cbn. now apply lookup_app_l_Some. Qed.

Lemma running_out_dict s c ds out :
  refs (running s c ds out) !! length (refs s)
  = Some (asset_refs (length (nums s))).
Proof. cbn. now rewrite list_lookup_middle. Qed.

(** [out_dict[k][key] = v] in the course of a call. *)
Lemma setitem_running s c ds out k key v i d :
  asset_index k = Some i -> ds !! i = Some d ->
  (d' <- ref_getitem (length (refs s)) k ;; num_setitem d' key v)
    (running s c ds out)
  = (inr tt, running s c (<[i := dict_set d key v]> ds) out).
Proof.
  intros Hi Hd.
  erewrite bind_inr; cycle 1.
  { eapply ref_getitem_inr; [apply running_out_dict|].
    rewrite asset_refs_get, Hi. reflexivity. }
  erewrite num_setitem_inr; cycle 1.
  { cbn. rewrite lookup_app_r by lia.
    replace (length (nums s) + i - length (nums s))%nat with i by lia.
    exact Hd. }
  unfold running. cbn. f_equal. f_equal.
  rewrite insert_app_r_alt by lia. f_equal. f_equal. lia.
Qed.

Lemma setitem_running_then {B : Type} s c ds out k key v i d (K : M B) :
  asset_index k = Some i -> ds !! i = Some d ->
  (d' <- ref_getitem (length (refs s)) k ;; num_setitem d' key v ;;; K)
    (running s c ds out)
  = K (running s c (<[i := dict_set d key v]> ds) out).
Proof.
  intros Hi Hd.
  pose proof (setitem_running s c ds out k key v i d Hi Hd) as H.
  unfold bind in *.
  destruct (ref_getitem (length (refs s)) k (running s c ds out))
    as [[e|l] t].
  - discriminate.
  - now rewrite H.
Qed.

(** The result of a call that has returned, read back from the store. *)
Lemma outputs_at_running s c d1 d2 d3 out :
  outputs_at (running s c [d1; d2; d3] out) (length (refs s))
  = Some [("machines", d1); ("buildings", d2); ("intangibles", d3)].
Proof.
  unfold outputs_at. rewrite running_out_dict.
  unfold deref, asset_refs, running. cbn [nums mapM fst snd].
  rewrite !lookup_app_r by lia.
  replace (length (nums s) - length (nums s))%nat with 0%nat by lia.
  replace (S (length (nums s)) - length (nums s))%nat with 1%nat by lia.
  replace (S (S (length (nums s))) - length (nums s))%nat with 2%nat by lia.
  reflexivity.
Qed.

Lemma extends_nums s t l d :
  extends s t -> nums s !! l = Some d -> nums t !! l = Some d.
Proof. intros [H _] Hl. exact (prefix_lookup_Some _ _ _ _ Hl H). Qed.

Lemma extends_strs s t l d :
  extends s t -> strs s !! l = Some d -> strs t !! l = Some d.
Proof. intros [_ H] Hl. exact (prefix_lookup_Some _ _ _ _ Hl H). Qed.

Lemma extends_store_get s t l k v :
  extends s t -> store_get s l k = Some v -> store_get t l k = Some v.
Proof.
  intros H. unfold store_get. destruct (nums s !! l) eqn:Hl; [|discriminate].
  now rewrite (extends_nums _ _ _ _ H Hl).
Qed.

Lemma extends_refl s : extends s s.
Proof. split; reflexivity. Qed.

(** ** Rules for triples *)

Lemma triple_bind {A B : Type} (P : state -> Prop) (m : M A) (f : A -> M B)
    (Q : A -> state -> Prop) (R : B -> state -> Prop) (X : state -> Prop) :
  triple P m Q X -> (forall a, triple (Q a) (f a) R X) ->
  triple P (bind m f) R X.
Proof.
  intros Hm Hf t Ht. unfold bind. specialize (Hm t Ht).
  destruct (m t) as [[e|a] t']; [exact Hm|]. exact (Hf a t' Hm).
Qed.

Lemma triple_ext {A : Type} (P : state -> Prop) (m m' : M A)
    (Q : A -> state -> Prop) (X : state -> Prop) :
  (forall s, m s = m' s) -> triple P m Q X -> triple P m' Q X.
Proof. intros H Hm t Ht. rewrite <- H. exact (Hm t Ht). Qed.

Lemma triple_ret {A : Type} (P : state -> Prop) (a : A) (X : state -> Prop) :
  triple P (ret a) (fun _ => P) X.
Proof. intros t Ht. exact Ht. Qed.

Lemma triple_raise {A : Type} (P : state -> Prop) (e : exn)
    (Q : A -> state -> Prop) :
  triple P (raise e) Q P.
Proof. intros t Ht. exact Ht. Qed.

Lemma triple_num_getitem (P : state -> Prop) l k :
  triple P (num_getitem l k) (fun _ => P) P.
Proof.
  intros t Ht. unfold num_getitem.
  destruct (nums t !! l) as [d|]; [destruct (dict_get d k)|]; exact Ht.
Qed.

Lemma triple_lift {A : Type} (P : state -> Prop) (x : exn + A) :
  triple P (lift x) (fun _ => P) P.
Proof. intros t Ht. unfold lift. destruct x; exact Ht. Qed.

Lemma triple_str_getitem (P : state -> Prop) l k :
  triple P (str_getitem l k) (fun _ => P) P.
Proof.
  intros t Ht. unfold str_getitem.
  destruct (strs t !! l) as [d|]; [destruct (dict_get d k)|]; exact Ht.
Qed.

Lemma triple_for_each {A : Type} (P : state -> Prop) (xs : list A)
    (body : A -> M unit) :
  (forall x, triple P (body x) (fun _ => P) P) ->
  triple P (for_each xs body) (fun _ => P) P.
Proof.
  intros Hbody. induction xs as [|x xs' IH]; cbn [for_each].
  - apply triple_ret.
  - eapply triple_bind; [apply Hbody|]. intros ?. exact IH.
Qed.

(** [out_dict[k][key] = v] writes to one of the three inner dictionaries,
    whatever [k] is. *)
Lemma triple_setitem s k key v :
  triple (in_call s)
         (d <- ref_getitem (length (refs s)) k ;; num_setitem d key v)
         (fun _ => in_call s) (in_call s).
Proof.
  intros t Ht. pose proof Ht as ([ds [Hn Hlen]] & Hs & Hr).
  unfold bind, ref_getitem. rewrite Hr, list_lookup_middle by reflexivity.
  rewrite asset_refs_get.
  destruct (asset_index k) as [i|] eqn:Hi; cbn [fmap option_fmap option_map];
    [|exact Ht].
  apply asset_index_lt in Hi.
  unfold num_setitem. rewrite Hn.
  destruct (ds !! i) as [d|] eqn:Hd.
  2:{ apply lookup_ge_None in Hd. lia. }
  rewrite lookup_app_r by lia.
  replace (length (nums s) + i - length (nums s))%nat with i by lia.
  rewrite Hd. repeat split; cbn [nums strs refs].
  - exists (<[i := dict_set d key v]> ds). split.
    + rewrite insert_app_r_alt by lia. do 2 f_equal. lia.
    + now rewrite length_insert.
  - exact Hs.
  - exact Hr.
Qed.

(** ** The evaluator, step by step *)

Section Steps.

Context {L : CCC}.

Lemma depreciation_pv_inr (g : globals) (bonus_s : nat) (k : string) (r : R)
    (s : state) (dm : dict string) (dl df db : dict R) (m : string)
    (Y b_f b_s : R) :
  strs s !! depreciation_methods g = Some dm -> dict_get dm k = Some m ->
  nums s !! depreciation_lives g = Some dl -> dict_get dl k = Some Y ->
  nums s !! federal_bonus_depreciation g = Some df ->
  dict_get df k = Some b_f ->
  nums s !! bonus_s = Some db -> dict_get db k = Some b_s ->
  valid_method m = true ->
  depreciation_pv g bonus_s k r s = (inr (pv m Y b_f r, pv m Y b_s r), s).
Proof.
  intros Hm1 Hm2 Hl1 Hl2 Hf1 Hf2 Hb1 Hb2 Hv.
  unfold depreciation_pv, pv.
  rewrite (bind_inr _ _ _ _ _ (str_getitem_inr _ _ _ _ _ Hm1 Hm2)).
  destruct (String.eqb m "dbsl") eqn:Hd.
  - rewrite (bind_inr _ _ _ _ _ (num_getitem_inr _ _ _ _ _ Hl1 Hl2)).
    rewrite (bind_inr _ _ _ _ _ (num_getitem_inr _ _ _ _ _ Hf1 Hf2)).
    rewrite (bind_inr _ _ _ _ _ (num_getitem_inr _ _ _ _ _ Hl1 Hl2)).
    rewrite (bind_inr _ _ _ _ _ (num_getitem_inr _ _ _ _ _ Hb1 Hb2)).
    reflexivity.
  - rewrite (bind_inr _ _ _ _ _ (str_getitem_inr _ _ _ _ _ Hm1 Hm2)).
    unfold valid_method in Hv. rewrite Hd in Hv. simpl in Hv. rewrite Hv.
    rewrite (bind_inr _ _ _ _ _ (num_getitem_inr _ _ _ _ _ Hl1 Hl2)).
    rewrite (bind_inr _ _ _ _ _ (num_getitem_inr _ _ _ _ _ Hf1 Hf2)).
    rewrite (bind_inr _ _ _ _ _ (num_getitem_inr _ _ _ _ _ Hl1 Hl2)).
    rewrite (bind_inr _ _ _ _ _ (num_getitem_inr _ _ _ _ _ Hb1 Hb2)).
    reflexivity.
Qed.

Lemma depreciation_pv_AssertionError g bonus_s k r s dm m :
  strs s !! depreciation_methods g = Some dm -> dict_get dm k = Some m ->
  valid_method m = false ->
  depreciation_pv g bonus_s k r s
  = (inl AssertionError,
     mkState (nums s) (strs s) (refs s)
             (stdout s ++ ["Please enter one of: dbsl, sl"]) (calls s)).
Proof.
  intros Hm1 Hm2 Hv. unfold valid_method in Hv.
  apply orb_false_iff in Hv as [Hd Hs].
  unfold depreciation_pv.
  rewrite (bind_inr _ _ _ _ _ (str_getitem_inr _ _ _ _ _ Hm1 Hm2)), Hd.
  rewrite (bind_inr _ _ _ _ _ (str_getitem_inr _ _ _ _ _ Hm1 Hm2)), Hs.
  reflexivity.
Qed.

Lemma depreciation_pv_KeyError g bonus_s k r s dm dl df db m Y b_f :
  strs s !! depreciation_methods g = Some dm -> dict_get dm k = Some m ->
  nums s !! depreciation_lives g = Some dl -> dict_get dl k = Some Y ->
  nums s !! federal_bonus_depreciation g = Some df ->
  dict_get df k = Some b_f ->
  nums s !! bonus_s = Some db -> dict_get db k = None ->
  valid_method m = true ->
  depreciation_pv g bonus_s k r s = (inl (KeyError k), s).
Proof.
  intros Hm1 Hm2 Hl1 Hl2 Hf1 Hf2 Hb1 Hb2 Hv.
  unfold depreciation_pv.
  rewrite (bind_inr _ _ _ _ _ (str_getitem_inr _ _ _ _ _ Hm1 Hm2)).
  destruct (String.eqb m "dbsl") eqn:Hd.
  - rewrite (bind_inr _ _ _ _ _ (num_getitem_inr _ _ _ _ _ Hl1 Hl2)).
    rewrite (bind_inr _ _ _ _ _ (num_getitem_inr _ _ _ _ _ Hf1 Hf2)).
    rewrite (bind_inr _ _ _ _ _ (num_getitem_inr _ _ _ _ _ Hl1 Hl2)).
    now rewrite (bind_inl _ _ _ _ _ (num_getitem_KeyError _ _ _ _ Hb1 Hb2)).
  - rewrite (bind_inr _ _ _ _ _ (str_getitem_inr _ _ _ _ _ Hm1 Hm2)).
    unfold valid_method in Hv. rewrite Hd in Hv. simpl in Hv. rewrite Hv.
    rewrite (bind_inr _ _ _ _ _ (num_getitem_inr _ _ _ _ _ Hl1 Hl2)).
    rewrite (bind_inr _ _ _ _ _ (num_getitem_inr _ _ _ _ _ Hf1 Hf2)).
    rewrite (bind_inr _ _ _ _ _ (num_getitem_inr _ _ _ _ _ Hl1 Hl2)).
    now rewrite (bind_inl _ _ _ _ _ (num_getitem_KeyError _ _ _ _ Hb1 Hb2)).
Qed.

(** One iteration in the course of a call comes to its outcome. *)
Lemma loop_body_running g u_s b w tau it s c ds out k v a db di i d :
  configured s g k a ->
  nums s !! b = Some db -> nums s !! it = Some di ->
  asset_index k = Some i -> ds !! i = Some d ->
  loop_body g u_s b w tau it (length (refs s)) (k, v) (running s c ds out)
  = match outcome_of g u_s w tau k a db di with
    | Done rho metr eatr =>
        (inr tt, running s c (<[i := filled d rho metr eatr]> ds) out)
    | Fails e p => (inl e, running s c ds (out ++ p))
    end.
Proof.
  intros ([dm [Hm1 Hm2]] & Hr & Hl & Hf) Hb Hit Hi Hd.
  unfold store_get in Hl, Hf.
  destruct (nums s !! depreciation_lives g) as [dl|] eqn:Hl1; [|discriminate].
  destruct (nums s !! federal_bonus_depreciation g) as [df|] eqn:Hf1;
    [|discriminate].
  unfold loop_body, outcome_of.
  destruct (valid_method (a_method a)) eqn:Hv.
  - destruct (dict_get db k) as [b_s|] eqn:Hb2.
    + erewrite bind_inr; cycle 1.
      { eapply depreciation_pv_inr; eauto using running_nums. }
      cbn [fst snd].
      erewrite bind_inr; cycle 1.
      { apply num_getitem_store, running_store_get, Hr. }
      destruct (dict_get di k) as [itc|] eqn:Hi2.
      * erewrite bind_inr; cycle 1.
        { eapply num_getitem_inr; eauto using running_nums. }
        unfold bind at 1, lift. fold (discount_rate g u_s).
        destruct (eq_coc_state _ _ _ _ _ _ _ _ _ _) as [e|rho].
        { unfold running. now rewrite app_nil_r. }
        erewrite setitem_running_then by eauto.
        erewrite setitem_running_then; eauto; cycle 1.
        { apply list_lookup_insert_eq. eapply lookup_lt_Some, Hd. }
        erewrite setitem_running; eauto; cycle 1.
        { apply list_lookup_insert_eq. rewrite length_insert.
          eapply lookup_lt_Some, Hd. }
        rewrite !list_insert_insert_eq. reflexivity.
      * erewrite bind_inl; cycle 1.
        { eapply num_getitem_KeyError; eauto using running_nums. }
        unfold running. now rewrite app_nil_r.
    + erewrite bind_inl; cycle 1.
      { eapply depreciation_pv_KeyError; eauto using running_nums. }
      unfold running. now rewrite app_nil_r.
  - erewrite bind_inl; cycle 1.
    { eapply depreciation_pv_AssertionError; eauto. }
    unfold running. cbn. now rewrite app_assoc.
Qed.

(** Up to the loop: the call is traced, the four dictionaries allocated. *)
Lemma compute_outputs_enter g u_s b w tau it s items :
  nums s !! depreciation_rates g = Some items ->
  compute_outputs g u_s b w tau it s
  = (for_each items (loop_body g u_s b w tau it (length (refs s))) ;;;
     ret (length (refs s)))
      (running s (mkCall u_s b w tau it) [[]; []; []] []).
Proof.
  intros Hitems.
  unfold compute_outputs.
  cbv [bind trace_call new_num new_ref].
  cbn [nums strs refs stdout calls].
  match goal with
  | |- context [num_items _ ?t] =>
      replace t with (running s (mkCall u_s b w tau it) [[]; []; []] [])
  end.
  - unfold num_items at 1.
    rewrite (running_nums _ _ _ _ _ _ Hitems). reflexivity.
  - unfold running, asset_refs. rewrite !length_app, app_nil_r, <- !app_assoc.
    cbn [length app]. repeat f_equal; lia.
Qed.

(** A call on the three asset types comes to the outcomes of its three
    iterations. *)
Lemma compute_outputs_run g u_s b w tau it s dr db di a1 a2 a3 :
  nums s !! depreciation_rates g = Some dr ->
  dict_keys dr = asset_types ->
  configured s g "machines" a1 ->
  configured s g "buildings" a2 ->
  configured s g "intangibles" a3 ->
  nums s !! b = Some db -> nums s !! it = Some di ->
  compute_outputs g u_s b w tau it s
  = run_assets s (mkCall u_s b w tau it)
               (outcome_of g u_s w tau "machines" a1 db di)
               (outcome_of g u_s w tau "buildings" a2 db di)
               (outcome_of g u_s w tau "intangibles" a3 db di).
Proof.
  intros Hdr Hkeys H1 H2 H3 Hb Hit.
  rewrite (compute_outputs_enter _ _ _ _ _ _ _ _ Hdr).
  destruct dr as [|[k1 v1] [|[k2 v2] [|[k3 v3] [|]]]]; try discriminate.
  injection Hkeys as -> -> ->.
  cbn [for_each]. unfold run_assets, bind at 1 2.
  erewrite loop_body_running; eauto; [|reflexivity..].
  destruct (outcome_of g u_s w tau "machines" a1 db di); [|reflexivity].
  unfold bind at 1.
  erewrite loop_body_running; eauto; [|reflexivity..].
  destruct (outcome_of g u_s w tau "buildings" a2 db di); [|reflexivity].
  unfold bind at 1.
  erewrite loop_body_running; eauto; [|reflexivity..].
  destruct (outcome_of g u_s w tau "intangibles" a3 db di); reflexivity.
Qed.


(** On the three asset types with complete arguments and recognized
    methods, an iteration is done when no divisor is zero. *)
Lemma outcome_of_done g u_s w tau k a db di b_s itc :
  valid_method (a_method a) = true ->
  dict_get db k = Some b_s -> dict_get di k = Some itc ->
  divisors_nonzero (u_f g) u_s tau ->
  outcome_of g u_s w tau k a db di
  = Done (rho_of g u_s w tau a b_s itc) (metr_of g u_s w tau a b_s itc)
         (eatr_of g u_s w tau a b_s itc).
Proof.
  intros Hv Hb Hi Hn. unfold outcome_of. rewrite Hv, Hb, Hi. cbv zeta.
  now rewrite (eq_coc_state_inr _ _ _ _ _ _ _ _ _ _ Hn).
Qed.

(** And raises when one is. *)
Lemma outcome_of_zero g u_s w tau k a db di :
  valid_method (a_method a) = true ->
  has_key db k = true -> has_key di k = true ->
  ~ divisors_nonzero (u_f g) u_s tau ->
  outcome_of g u_s w tau k a db di = Fails ZeroDivisionError [].
Proof.
  intros Hv Hb Hi Hn. unfold outcome_of. rewrite Hv.
  apply has_key_true in Hb as [b_s ->], Hi as [itc ->]. cbv zeta.
  now rewrite (eq_coc_state_inl _ _ _ _ _ _ _ _ _ _ Hn).
Qed.

Lemma outcome_of_invalid g u_s w tau k a db di :
  valid_method (a_method a) = false ->
  outcome_of g u_s w tau k a db di
  = Fails AssertionError ["Please enter one of: dbsl, sl"].
Proof. intros Hv. unfold outcome_of. now rewrite Hv. Qed.

(** ** What a call leaves alone *)

Lemma triple_depreciation_pv s g b k r :
  triple (in_call s) (depreciation_pv g b k r) (fun _ => in_call s)
         (in_call s).
Proof.
  unfold depreciation_pv.
  eapply triple_bind; [apply triple_str_getitem|]. intros m.
  destruct (String.eqb m "dbsl").
  - repeat (eapply triple_bind; [apply triple_num_getitem|]; intros ?).
    apply triple_ret.
  - eapply triple_bind; [apply triple_str_getitem|]. intros m'.
    destruct (String.eqb m' "sl").
    + repeat (eapply triple_bind; [apply triple_num_getitem|]; intros ?).
      apply triple_ret.
    + eapply triple_bind with (Q := fun _ => in_call s).
      * intros t Ht. exact Ht.
      * intros ?. apply triple_raise.
Qed.

Lemma triple_loop_body s g u_s b w tau it item :
  triple (in_call s) (loop_body g u_s b w tau it (length (refs s)) item)
         (fun _ => in_call s) (in_call s).
Proof.
  destruct item as [k v]. unfold loop_body.
  eapply triple_bind; [apply triple_depreciation_pv|]. intros z.
  eapply triple_bind; [apply triple_num_getitem|]. intros delta.
  eapply triple_bind; [apply triple_num_getitem|]. intros itc.
  eapply triple_bind; [apply triple_lift|]. intros rho.
  cbv zeta.
  eapply triple_ext; [intros t; apply bind_assoc|].
  eapply triple_bind; [apply triple_setitem|]. intros ?.
  eapply triple_ext; [intros t; apply bind_assoc|].
  eapply triple_bind; [apply triple_setitem|]. intros ?.
  apply triple_setitem.
Qed.

(** Whatever the arguments and however the call ends, the store it leaves
    is the store it found with four new objects. *)
Lemma compute_outputs_in_call g u_s b w tau it s :
  in_call s (compute_outputs g u_s b w tau it s).2.
Proof.
  unfold compute_outputs.
  cbv [bind trace_call new_num new_ref].
  cbn [nums strs refs stdout calls].
  match goal with
  | |- context [num_items _ ?t] => assert (Ht : in_call s t)
  end.
  { repeat split; cbn [nums strs refs].
    - exists [[]; []; []]. split; [|reflexivity].
      now rewrite <- !app_assoc.
    - unfold asset_refs. rewrite !length_app. cbn [length].
      repeat f_equal; lia. }
  match goal with
  | |- context [num_items _ ?t] => generalize dependent t
  end.
  intros t Ht. unfold num_items.
  destruct (nums t !! depreciation_rates g) as [items|]; [|exact Ht].
  pose proof (triple_for_each (in_call s) items
                (loop_body g u_s b w tau it (length (refs s)))
                (triple_loop_body s g u_s b w tau it) t Ht) as H.
  destruct (for_each items _ t) as [[e|[]] t']; exact H.
Qed.

End Steps.

(** ** The script's configuration *)

Lemma define_parameters_run :
  define_parameters empty_state = (inr script_parameters, script_state).
Proof. reflexivity. Qed.

Lemma script_configuration (s : state) :
  extends script_state s ->
  configuration s script_parameters machines buildings intangibles.
Proof.
  intros Hs. split.
  - eexists. split; [eapply extends_nums; [exact Hs|reflexivity]|reflexivity].
  - repeat split;
      [eexists; split; [eapply extends_strs; [exact Hs|reflexivity]|reflexivity]
      |eapply extends_store_get; [exact Hs|reflexivity]..].
  - repeat split;
      [eexists; split; [eapply extends_strs; [exact Hs|reflexivity]|reflexivity]
      |eapply extends_store_get; [exact Hs|reflexivity]..].
  - repeat split;
      [eexists; split; [eapply extends_strs; [exact Hs|reflexivity]|reflexivity]
      |eapply extends_store_get; [exact Hs|reflexivity]..].
Qed.

Lemma product_keys_NoDup : NoDup product_keys.
Proof.
  change product_keys
    with ((fun t : string * string * string =>
             (Some (pd.Str t.1.1), Some (pd.Str t.1.2), Some (pd.Str t.2)))
            <$> (a ← asset_types; p ← policies; m ← output_vars;
                 [(p, m, a)])).
  apply NoDup_fmap_2.
  - intros [[p m] a] [[p' m'] a'] H. cbn in H. congruence.
  - apply (bool_decide_unpack _). vm_compute. reflexivity.
Qed.

(** ** Real arithmetic *)

Lemma Rdiv_le_of_mult (a b c : R) : 0 < b -> a <= c * b -> a / b <= c.
Proof.
  intros Hb H. apply Rmult_le_reg_r with b; [exact Hb|].
  unfold Rdiv. rewrite Rmult_assoc, Rinv_l by lra. lra.
Qed.

Lemma Rdiv_lt_of_mult (a b c : R) : 0 < b -> a < c * b -> a / b < c.
Proof.
  intros Hb H. apply Rmult_lt_reg_r with b; [exact Hb|].
  unfold Rdiv. rewrite Rmult_assoc, Rinv_l by lra. lra.
Qed.

Lemma Rdiv_gt_of_mult (a b c : R) : 0 < b -> c * b < a -> c < a / b.
Proof.
  intros Hb H. apply Rmult_lt_reg_r with b; [exact Hb|].
  unfold Rdiv. rewrite Rmult_assoc, Rinv_l by lra. lra.
Qed.

Lemma Rdiv_lt_cross (a b c d : R) :
  0 < b -> 0 < d -> a * d < c * b -> a / b < c / d.
Proof.
  intros Hb Hd H. apply Rdiv_lt_of_mult; [exact Hb|].
  replace (c / d * b) with ((c * b) / d) by (field; lra).
  apply Rdiv_gt_of_mult; [exact Hd|]. lra.
Qed.

Lemma exp_ge_1_plus (x : R) : 1 + x <= exp x.
Proof.
  destruct (Req_dec x 0) as [->|Hx].
  - rewrite exp_0. lra.
  - left. now apply exp_ineq1.
Qed.

Lemma exp_neg_lt_1 (x : R) : 0 < x -> exp (- x) < 1.
Proof. intros Hx. rewrite <- exp_0. apply exp_increasing. lra. Qed.

(** ** The cost of capital and the marginal rate as functions *)

(** The cost of capital falls with the franchise rate, whatever the other
    inputs, as long as the gross-receipts rate is below 1. *)
Lemma cost_of_capital_franchise (delta z_f z_s w w' u_f u_s tau itc p r : R) :
  tau < 1 -> w' < w ->
  cost_of_capital delta z_f z_s w' u_f u_s tau itc p r
  < cost_of_capital delta z_f z_s w u_f u_s tau itc p r.
Proof.
  intros Htau Hw. unfold cost_of_capital. cbv zeta.
  set (x := (r - p + delta) / (1 - u_f - u_s + u_f * u_s) *
            (1 - itc - u_f * z_f - u_s * z_s + u_f * u_s * z_s)).
  clearbody x.
  assert (H : (x + w') / (1 - tau) < (x + w) / (1 - tau)).
  { apply Rdiv_lt_cross; nra. }
  lra.
Qed.

(** The marginal effective tax rate rises with a positive cost of
    capital, when the after-tax rate exceeds inflation. *)
Lemma eq_metr_formula_increasing (rho rho' r_prime p : R) :
  p < r_prime -> 0 < rho' -> rho' < rho ->
  eq_metr_formula rho' r_prime p < eq_metr_formula rho r_prime p.
Proof.
  intros Hc H0 Hlt. unfold eq_metr_formula.
  apply Rdiv_lt_cross; nra.
Qed.

(** With present values of at most 1 the cost of capital is positive, if
    the investment tax credit is small against the return on equity. *)
Lemma cost_of_capital_positive (delta z_f z_s w u_f u_s itc p r : R) :
  0 < u_f < 1 -> 0 <= u_s < 1 -> z_f <= 1 -> z_s <= 1 -> 0 <= w ->
  0 <= delta -> p < r ->
  (r - p + delta) * itc < (r - p) * ((1 - u_f) * (1 - u_s)) ->
  0 < cost_of_capital delta z_f z_s w u_f u_s 0.00 itc p r.
Proof.
  intros Hf Hs Hzf Hzs Hw Hd Hr Hitc. unfold cost_of_capital. cbv zeta.
  replace (1 - 0.00) with 1 by lra.
  set (D := 1 - u_f - u_s + u_f * u_s).
  set (N := 1 - itc - u_f * z_f - u_s * z_s + u_f * u_s * z_s).
  assert (HD : 0 < D) by (unfold D; nra).
  assert (HN : D - itc <= N).
  { assert (0 <= u_f * (1 - z_f)) by nra.
    assert (0 <= u_s * (1 - u_f)) by nra.
    assert (0 <= u_s * (1 - u_f) * (1 - z_s)) by nra.
    unfold D, N. lra. }
  replace ((r - p + delta) / D * N) with ((r - p + delta) * N / D)
    by (field; lra).
  assert (H : delta < (r - p + delta) * N / D).
  { apply Rdiv_gt_of_mult; [exact HD|].
    assert (0 < r - p + delta) by lra.
    assert ((r - p + delta) * (D - itc) <= (r - p + delta) * N) by nra.
    unfold D in *. nra. }
  lra.
Qed.

(** The cost of capital rises with the state rate from 0.035 to 0.043 when
    the present values leave a positive net factor. *)
Lemma cost_of_capital_state_rate (delta z_f z_s w itc p r : R) :
  p - delta < r ->
  0.79 * z_s + 0.21 * z_f < 1 - itc ->
  cost_of_capital delta z_f z_s w 0.21 0.035 0.00 itc p r
  < cost_of_capital delta z_f z_s w 0.21 0.043 0.00 itc p r.
Proof.
  intros Hr Hz. unfold cost_of_capital. cbv zeta.
  replace (1 - 0.00) with 1 by lra.
  set (x := r - p + delta). assert (Hx : 0 < x) by (unfold x; lra).
  set (N1 := 1 - itc - 0.21 * z_f - 0.035 * z_s + 0.21 * 0.035 * z_s).
  set (N2 := 1 - itc - 0.21 * z_f - 0.043 * z_s + 0.21 * 0.043 * z_s).
  replace (x / (1 - 0.21 - 0.035 + 0.21 * 0.035) * N1)
    with (x * N1 / (1 - 0.21 - 0.035 + 0.21 * 0.035)) by (field; lra).
  replace (x / (1 - 0.21 - 0.043 + 0.21 * 0.043) * N2)
    with (x * N2 / (1 - 0.21 - 0.043 + 0.21 * 0.043)) by (field; lra).
  assert (H : x * N1 / (1 - 0.21 - 0.035 + 0.21 * 0.035)
              < x * N2 / (1 - 0.21 - 0.043 + 0.21 * 0.043)).
  { apply Rdiv_lt_cross; [lra|lra|]. unfold N1, N2. nra. }
  lra.
Qed.

(** ** The present values of depreciation deductions *)

(** Straight line: the deductions are worth at most their sum. *)
Lemma sl_formula_le_1 (Y bonus r : R) :
  0 < Y -> 0 < r -> bonus <= 1 -> sl_formula Y bonus r <= 1.
Proof.
  intros HY Hr Hb. unfold sl_formula.
  assert (Hx : 0 < r * Y) by nra.
  pose proof (exp_ge_1_plus (-1 * r * Y)) as He.
  assert (Hq : (1 - exp (-1 * r * Y)) / (r * Y) <= 1)
    by (apply Rdiv_le_of_mult; lra).
  set (q := (1 - exp (-1 * r * Y)) / (r * Y)) in *. clearbody q. nra.
Qed.

(** Straight line over a life that is short against the discount rate. *)
Lemma sl_formula_short (Y bonus r : R) :
  0 < Y -> 0 < r -> r * Y <= 2 -> bonus <= 1 ->
  sl_formula Y bonus r <= bonus + (1 - bonus) * (1 - r * Y / 4).
Proof.
  intros HY Hr Hx2 Hb. unfold sl_formula.
  assert (Hx : 0 < r * Y) by nra.
  set (x := r * Y) in *.
  replace (-1 * r * Y) with (- (x / 2) + - (x / 2)) by (unfold x; lra).
  rewrite exp_plus.
  pose proof (exp_ge_1_plus (- (x / 2))) as He.
  set (e := exp (- (x / 2))) in *. clearbody e.
  assert (Hq : (1 - e * e) / x <= 1 - x / 4).
  { apply Rdiv_le_of_mult; [exact Hx|]. nra. }
  set (q := (1 - e * e) / x) in *. clearbody q. nra.
Qed.

(** Straight line over a long life. *)
Lemma sl_formula_long (Y bonus r : R) :
  0 < Y -> 0 < r -> bonus <= 1 ->
  sl_formula Y bonus r <= bonus + (1 - bonus) * (1 / (r * Y)).
Proof.
  intros HY Hr Hb. unfold sl_formula.
  assert (Hx : 0 < r * Y) by nra.
  pose proof (exp_pos (-1 * r * Y)) as He.
  set (e := exp (-1 * r * Y)) in *. clearbody e.
  assert (Hq : (1 - e) / (r * Y) <= 1 / (r * Y)).
  { apply Rdiv_le_of_mult; [exact Hx|].
    replace (1 / (r * Y) * (r * Y)) with 1 by (field; lra). lra. }
  set (q := (1 - e) / (r * Y)) in *. set (q' := 1 / (r * Y)) in *.
  clearbody q q'. nra.
Qed.

(** Declining balance at twice the straight-line rate with a switch to
    straight line at half the life: the part written off by declining
    balance is discounted at least by beta / (beta + r), and at most half
    of the basis is left at the switch. *)
Lemma dbsl_formula_bound (Y bonus r : R) :
  0 < Y -> 0 < r -> bonus <= 1 ->
  dbsl_formula Y 2 bonus r
  <= bonus + (1 - bonus) * ((1 + 2 / (2 + r * Y)) / 2).
Proof.
  intros HY Hr Hb. unfold dbsl_formula. cbv zeta.
  replace (Y * (1 - 1 / 2)) with (Y / 2) by lra.
  replace (Y - Y / 2) with (Y / 2) by lra.
  assert (Hbeta : 2 / Y * (Y / 2) = 1) by (field; lra).
  assert (HA : 2 / Y / (2 / Y + r) = 2 / (2 + r * Y)) by (field; nra).
  rewrite HA.
  set (A := 2 / (2 + r * Y)).
  assert (HA0 : 0 < A) by (unfold A; apply Rdiv_lt_0_compat; nra).
  assert (HA1 : A <= 1) by (unfold A; apply Rdiv_le_of_mult; nra).
  set (h := Y / 2) in *. assert (Hh : 0 < h) by (unfold h; lra).
  replace (-1 * (2 / Y + r) * h) with (- 1 + - (r * h)) by lra.
  replace (-1 * (2 / Y) * h) with (- 1) by lra.
  replace (-1 * r * h) with (- (r * h)) by lra.
  replace (-1 * r * Y) with (- (r * h) + - (r * h)) by (unfold h; lra).
  rewrite !exp_plus.
  assert (Hx : 0 < r * h) by nra.
  assert (Heb : exp (- 1) <= 1 / 2).
  { pose proof (exp_ge_1_plus 1) as H1.
    pose proof (exp_plus (-1) 1) as H.
    replace (-1 + 1) with 0 in H by lra. rewrite exp_0 in H.
    pose proof (exp_pos (-1)). nra. }
  pose proof (exp_pos (- 1)) as Heb0.
  pose proof (exp_pos (- (r * h))) as Her0.
  pose proof (exp_neg_lt_1 (r * h) Hx) as Her1.
  pose proof (exp_ge_1_plus (- (r * h))) as Her2.
  set (eb := exp (- 1)) in *. set (er := exp (- (r * h))) in *.
  clearbody eb er.
  assert (Hp : 0 < eb * er) by nra.
  assert (Hp1 : eb * er <= 1 / 2) by nra.
  (* the straight-line part is at most what is left of the basis *)
  assert (H2 : eb / (h * r) * (er - er * er) <= eb * er).
  { replace (eb / (h * r) * (er - er * er))
      with (eb * er * ((1 - er) / (h * r))) by (field; nra).
    assert (Hq : (1 - er) / (h * r) <= 1) by (apply Rdiv_le_of_mult; nra).
    set (q := (1 - er) / (h * r)) in *. clearbody q. nra. }
  set (c := eb / (h * r) * (er - er * er)) in *. clearbody c.
  assert (Hcore : A * (1 - eb * er) + c <= (1 + A) / 2) by nra.
  set (core := A * (1 - eb * er) + c) in *. clearbody core. nra.
Qed.

Lemma dbsl_formula_le_1 (Y bonus r : R) :
  0 < Y -> 0 < r -> bonus <= 1 -> dbsl_formula Y 2 bonus r <= 1.
Proof.
  intros HY Hr Hb. pose proof (dbsl_formula_bound Y bonus r HY Hr Hb) as H.
  assert (HA : 2 / (2 + r * Y) <= 1) by (apply Rdiv_le_of_mult; nra).
  set (A := 2 / (2 + r * Y)) in *. clearbody A. nra.
Qed.

(** ** The script's rates and values *)

Section Scenarios.

Context {L : CCC}.

(** The value of a call of the script, on the script's two maps. *)
Lemma evaluate_script (s : state) (u_s w tau : R) :
  extends script_state s ->
  divisors_nonzero 0.21 u_s tau ->
  let p := script_parameters in
  evaluate p u_s (bonus_s p) w tau (inv_tax_credit_s p) s
  = Some [("machines",
           results (rho_of p u_s w tau machines 0.0 0.015)
                   (metr_of p u_s w tau machines 0.0 0.015)
                   (eatr_of p u_s w tau machines 0.0 0.015));
          ("buildings",
           results (rho_of p u_s w tau buildings 0.0 0.025)
                   (metr_of p u_s w tau buildings 0.0 0.025)
                   (eatr_of p u_s w tau buildings 0.0 0.025));
          ("intangibles",
           results (rho_of p u_s w tau intangibles 0.0 0.01)
                   (metr_of p u_s w tau intangibles 0.0 0.01)
                   (eatr_of p u_s w tau intangibles 0.0 0.01))].
Proof.
  intros Hs Hn p.
  destruct (script_configuration s Hs) as [[dr [Hdr Hk]] H1 H2 H3].
  unfold evaluate.
  erewrite compute_outputs_run; eauto;
    [|eapply extends_nums; [exact Hs|reflexivity]..].
  erewrite !outcome_of_done by (reflexivity || exact Hn).
  cbn [run_assets]. apply outputs_at_running.
Qed.

(** The divisors of the script's three calls. *)
Lemma script_divisors (u_s : R) :
  u_s <> 1 -> divisors_nonzero 0.21 u_s 0.00.
Proof. intros H. split; [nra|lra]. Qed.

Lemma pv_dbsl (Y bonus r : R) : pv "dbsl" Y bonus r = dbsl Y 2 bonus r.
Proof. reflexivity. Qed.

Lemma pv_sl (Y bonus r : R) : pv "sl" Y bonus r = sl Y bonus r.
Proof. reflexivity. Qed.

Hypothesis documented : ccc_documented L.

Lemma script_discount_rate (u_s : R) :
  discount_rate script_parameters u_s = 0.06 + 0.02.
Proof.
  unfold discount_rate. cbn.
  replace 0.0 with 0 by lra. apply (calc_r_equity L documented).
Qed.

Lemma script_after_tax_rate : after_tax_rate script_parameters = 0.06 + 0.02.
Proof.
  unfold after_tax_rate. cbn.
  replace 0.0 with 0 by lra. apply (calc_r_prime_equity L documented).
Qed.

Lemma pv_le_1 (m : string) (Y bonus r : R) :
  0 < Y -> 0 < r -> bonus <= 1 -> pv m Y bonus r <= 1.
Proof.
  intros HY Hr Hb. unfold pv. destruct (String.eqb m "dbsl").
  - rewrite (dbsl_documented L documented). now apply dbsl_formula_le_1.
  - rewrite (sl_documented L documented). now apply sl_formula_le_1.
Qed.

(** In the script every cost of capital is positive, at a state rate of
    at most 5% and without gross-receipts tax. *)
Lemma script_rho_positive (u_s w : R) (k : string) (a : asset_data)
    (itc : R) :
  (k, a, itc) ∈ [("machines", machines, 0.015);
                 ("buildings", buildings, 0.025);
                 ("intangibles", intangibles, 0.01)] ->
  0 <= u_s <= 0.05 -> 0 <= w ->
  0 < rho_of script_parameters u_s w 0.00 a 0.0 itc.
Proof.
  intros Hin Hu Hw. unfold rho_of. cbv zeta.
  rewrite script_discount_rate.
  rewrite !elem_of_cons, elem_of_nil in Hin.
  destruct Hin as [Hin|[Hin|[Hin|[]]]]; injection Hin as -> -> ->;
    cbn [a_delta a_method a_life a_bonus_f machines buildings intangibles
         u_f inflation_rate globals_of script_parameters];
    (apply cost_of_capital_positive;
     [lra|lra|apply pv_le_1; lra|apply pv_le_1; lra|lra|lra|lra|nra]).
Qed.

(** In the script the present values leave a positive net factor. *)
Lemma script_net_factor (k : string) (a : asset_data) (itc : R) :
  (k, a, itc) ∈ [("machines", machines, 0.015);
                 ("buildings", buildings, 0.025);
                 ("intangibles", intangibles, 0.01)] ->
  let r := 0.06 + 0.02 in
  0.79 * pv (a_method a) (a_life a) 0.0 r
  + 0.21 * pv (a_method a) (a_life a) (a_bonus_f a) r
  < 1 - itc.
Proof.
  intros Hin r. rewrite !elem_of_cons, elem_of_nil in Hin.
  destruct Hin as [Hin|[Hin|[Hin|[]]]]; injection Hin as -> -> ->;
    cbn [a_method a_life a_bonus_f machines buildings intangibles].
  - rewrite !pv_dbsl, !(dbsl_documented L documented).
    pose proof (dbsl_formula_bound 7 0.0 r) as Hs.
    pose proof (dbsl_formula_bound 7 0.4 r) as Hf.
    unfold r in *. lra.
  - rewrite !pv_sl, !(sl_documented L documented).
    pose proof (sl_formula_long 39 0.0 r) as Hs.
    unfold r in *. lra.
  - rewrite !pv_sl, !(sl_documented L documented).
    pose proof (sl_formula_short 3 0.0 r) as Hs.
    pose proof (sl_formula_short 3 0.4 r) as Hf.
    unfold r in *. lra.
Qed.

End Scenarios.

Lemma ccc_formulas_documented : ccc_documented ccc_formulas.
Proof.
  split; intros; cbn;
    unfold calc_r_formula, calc_r_prime_formula; try reflexivity; lra.
Qed.

(** ** Stores in the course of a call, and well-configured calls *)

Lemma in_call_nums s t l d :
  in_call s t -> nums s !! l = Some d -> nums t !! l = Some d.
Proof.
  intros ([ds [Hn _]] & _ & _) H. rewrite Hn. now apply lookup_app_l_Some.
Qed.

Lemma in_call_strs s t l d :
  in_call s t -> strs s !! l = Some d -> strs t !! l = Some d.
Proof. intros (_ & Hs & _) H. now rewrite Hs. Qed.

Lemma in_call_refs s t l d :
  in_call s t -> refs s !! l = Some d -> refs t !! l = Some d.
Proof.
  intros (_ & _ & Hr) H. rewrite Hr. now apply lookup_app_l_Some.
Qed.

Lemma in_call_store_get s t l k v :
  in_call s t -> store_get s l k = Some v -> store_get t l k = Some v.
Proof.
  intros Ht. unfold store_get. destruct (nums s !! l) eqn:Hl; [|discriminate].
  now rewrite (in_call_nums _ _ _ _ Ht Hl).
Qed.

Lemma in_call_deref s t d r :
  in_call s t -> deref s d = Some r -> deref t d = Some r.
Proof.
  intros Ht. unfold deref. revert r.
  induction d as [|[k l] d IH]; intros r; [easy|].
  cbn. destruct (nums s !! l) as [inner|] eqn:Hl; [|discriminate].
  rewrite (in_call_nums _ _ _ _ Ht Hl). cbn.
  destruct (mapM _ d) as [r'|] eqn:Hd; [|discriminate].
  cbn. intros Hr. now rewrite (IH _ eq_refl).
Qed.

Lemma in_call_outputs_at s t o r :
  in_call s t -> outputs_at s o = Some r -> outputs_at t o = Some r.
Proof.
  intros Ht. unfold outputs_at.
  destruct (refs s !! o) as [d|] eqn:Ho; [|discriminate].
  rewrite (in_call_refs _ _ _ _ Ht Ho). now apply in_call_deref.
Qed.

Lemma in_call_configured s t g k a :
  in_call s t -> configured s g k a -> configured t g k a.
Proof.
  intros Ht ([dm [H1 H2]] & Hr & Hl & Hf). repeat split.
  - exists dm. split; [now apply (in_call_strs s)|exact H2].
  - now apply (in_call_store_get s).
  - now apply (in_call_store_get s).
  - now apply (in_call_store_get s).
Qed.

Lemma in_call_well_configured s t g b it a1 a2 a3 db di :
  in_call s t -> well_configured s g b it a1 a2 a3 db di ->
  well_configured t g b it a1 a2 a3 db di.
Proof.
  intros Ht [[[dr [Hdr Hk]] H1 H2 H3] Hb Hi Hm Hkeys]. split; [split|..].
  - exists dr. split; [now apply (in_call_nums s)|exact Hk].
  - now apply (in_call_configured s).
  - now apply (in_call_configured s).
  - now apply (in_call_configured s).
  - now apply (in_call_nums s).
  - now apply (in_call_nums s).
  - exact Hm.
  - exact Hkeys.
Qed.

Section Runs.
Context {L : CCC}.

(** A well-configured call returns the three inner dictionaries. *)
Lemma well_configured_run g b it s a1 a2 a3 db di b1 b2 b3 i1 i2 i3
    u_s w tau :
  well_configured s g b it a1 a2 a3 db di ->
  dict_get db "machines" = Some b1 -> dict_get di "machines" = Some i1 ->
  dict_get db "buildings" = Some b2 -> dict_get di "buildings" = Some i2 ->
  dict_get db "intangibles" = Some b3 ->
  dict_get di "intangibles" = Some i3 ->
  divisors_nonzero (u_f g) u_s tau ->
  compute_outputs g u_s b w tau it s
  = (inr (length (refs s)),
     running s (mkCall u_s b w tau it)
             [asset_results g u_s w tau a1 b1 i1;
              asset_results g u_s w tau a2 b2 i2;
              asset_results g u_s w tau a3 b3 i3] []).
Proof.
  intros [[[dr [Hdr Hk]] H1 H2 H3] Hb Hi (V1 & V2 & V3) _]
         Hb1 Hi1 Hb2 Hi2 Hb3 Hi3 Hn.
  erewrite compute_outputs_run by eauto.
  rewrite (outcome_of_done _ _ _ _ _ _ _ _ _ _ V1 Hb1 Hi1 Hn),
          (outcome_of_done _ _ _ _ _ _ _ _ _ _ V2 Hb2 Hi2 Hn),
          (outcome_of_done _ _ _ _ _ _ _ _ _ _ V3 Hb3 Hi3 Hn).
  reflexivity.
Qed.

(** With a zero divisor it ends in the first iteration. *)
Lemma well_configured_zero g b it s a1 a2 a3 db di u_s w tau :
  well_configured s g b it a1 a2 a3 db di ->
  ~ divisors_nonzero (u_f g) u_s tau ->
  compute_outputs g u_s b w tau it s
  = (inl ZeroDivisionError,
     running s (mkCall u_s b w tau it) [[]; []; []] []).
Proof.
  intros [[[dr [Hdr Hk]] H1 H2 H3] Hb Hi (V1 & V2 & V3) Hkeys] Hn.
  erewrite compute_outputs_run by eauto.
  destruct (Hkeys "machines") as [Kb Ki];
    [unfold asset_types; rewrite !elem_of_cons; auto|].
  now rewrite (outcome_of_zero _ _ _ _ _ _ _ _ V1 Kb Ki Hn).
Qed.

Lemma well_configured_values s g b it a1 a2 a3 db di :
  well_configured s g b it a1 a2 a3 db di ->
  exists b1 b2 b3 i1 i2 i3,
    dict_get db "machines" = Some b1 /\ dict_get di "machines" = Some i1 /\
    dict_get db "buildings" = Some b2 /\ dict_get di "buildings" = Some i2 /\
    dict_get db "intangibles" = Some b3 /\
    dict_get di "intangibles" = Some i3.
Proof.
  intros [_ _ _ _ Hkeys].
  destruct (Hkeys "machines") as [X1 Y1];
    [unfold asset_types; rewrite !elem_of_cons; auto|].
  destruct (Hkeys "buildings") as [X2 Y2];
    [unfold asset_types; rewrite !elem_of_cons; auto|].
  destruct (Hkeys "intangibles") as [X3 Y3];
    [unfold asset_types; rewrite !elem_of_cons; auto|].
  apply has_key_true in X1 as [b1 ?], X2 as [b2 ?], X3 as [b3 ?],
                        Y1 as [i1 ?], Y2 as [i2 ?], Y3 as [i3 ?].
  exists b1, b2, b3, i1, i2, i3. auto 10.
Qed.

Lemma well_configured_evaluate g b it s a1 a2 a3 db di b1 b2 b3 i1 i2 i3
    u_s w tau :
  well_configured s g b it a1 a2 a3 db di ->
  dict_get db "machines" = Some b1 -> dict_get di "machines" = Some i1 ->
  dict_get db "buildings" = Some b2 -> dict_get di "buildings" = Some i2 ->
  dict_get db "intangibles" = Some b3 ->
  dict_get di "intangibles" = Some i3 ->
  divisors_nonzero (u_f g) u_s tau ->
  evaluate g u_s b w tau it s
  = Some [("machines", asset_results g u_s w tau a1 b1 i1);
          ("buildings", asset_results g u_s w tau a2 b2 i2);
          ("intangibles", asset_results g u_s w tau a3 b3 i3)].
Proof.
  intros Hwc Hb1 Hi1 Hb2 Hi2 Hb3 Hi3 Hn. unfold evaluate.
  erewrite well_configured_run by eauto. apply outputs_at_running.
Qed.

(** A call that returns, returns the location after the last dictionary of
    dictionaries of the store it was entered in. *)
Lemma compute_outputs_returns g u_s b w tau it s o :
  (compute_outputs g u_s b w tau it s).1 = inr o -> o = length (refs s).
Proof.
  unfold compute_outputs.
  cbv [bind trace_call new_num new_ref].
  cbn [nums strs refs stdout calls].
  match goal with
  | |- context [num_items _ ?t] => generalize t
  end.
  intros t. destruct (num_items _ t) as [[e|items] t']; [discriminate|].
  destruct (for_each items _ t') as [[e|[]] t'']; [discriminate|].
  cbn. now intros [= <-].
Qed.

End Runs.

Lemma asset_index_elem (k : string) (i : nat) :
  asset_index k = Some i -> k ∈ asset_types.
Proof.
  unfold asset_index, asset_types. rewrite !elem_of_cons.
  destruct (String.eqb k "machines") eqn:E1;
    [apply String.eqb_eq in E1; auto|].
  destruct (String.eqb k "buildings") eqn:E2;
    [apply String.eqb_eq in E2; auto|].
  destruct (String.eqb k "intangibles") eqn:E3;
    [apply String.eqb_eq in E3; auto|].
  discriminate.
Qed.

Lemma bind_inr_inv {A B : Type} (m : M A) (f : A -> M B) s b t :
  bind m f s = (inr b, t) ->
  exists a s', m s = (inr a, s') /\ f a s' = (inr b, t).
Proof.
  unfold bind. destruct (m s) as [[e|a] s']; [discriminate|]. eauto.
Qed.

Lemma num_getitem_inr_inv l k s v t :
  num_getitem l k s = (inr v, t) ->
  t = s /\ exists d, nums s !! l = Some d /\ dict_get d k = Some v.
Proof.
  unfold num_getitem. destruct (nums s !! l) as [d|]; [|discriminate].
  destruct (dict_get d k) eqn:E; [|discriminate].
  intros [= <- <-]. eauto.
Qed.

Lemma str_getitem_inr_inv l k s v t :
  str_getitem l k s = (inr v, t) ->
  t = s /\ exists d, strs s !! l = Some d /\ dict_get d k = Some v.
Proof.
  unfold str_getitem. destruct (strs s !! l) as [d|]; [|discriminate].
  destruct (dict_get d k) eqn:E; [|discriminate].
  intros [= <- <-]. eauto.
Qed.

Lemma lift_inr_inv {A : Type} (x : exn + A) s a t :
  lift x s = (inr a, t) -> t = s /\ x = inr a.
Proof. unfold lift. now intros [= -> ->]. Qed.

Lemma ref_getitem_inr_inv l k s v t :
  ref_getitem l k s = (inr v, t) ->
  t = s /\ exists d, refs s !! l = Some d /\ dict_get d k = Some v.
Proof.
  unfold ref_getitem. destruct (refs s !! l) as [d|]; [|discriminate].
  destruct (dict_get d k) eqn:E; [|discriminate].
  intros [= <- <-]. eauto.
Qed.

Section Inversion.
Context {L : CCC}.

(** The selector returns only under a recognized method and with the
    asset type in the three dictionaries it reads, and leaves the store
    alone. *)
Lemma depreciation_pv_inr_inv g b k r s z t :
  depreciation_pv g b k r s = (inr z, t) ->
  t = s /\
  exists dm m dl df db,
    strs s !! depreciation_methods g = Some dm /\ dict_get dm k = Some m /\
    (m = "dbsl" \/ m = "sl") /\
    nums s !! depreciation_lives g = Some dl /\ has_key dl k = true /\
    nums s !! federal_bonus_depreciation g = Some df /\
    has_key df k = true /\
    nums s !! b = Some db /\ has_key db k = true.
Proof.
  unfold depreciation_pv. intros H.
  apply bind_inr_inv in H as (m & s1 & H1 & H).
  apply str_getitem_inr_inv in H1 as (-> & dm & Hdm & Hm).
  assert (Hbranch : forall (pvf : R -> R -> R -> R),
    (Y <- num_getitem (depreciation_lives g) k ;;
     b_f <- num_getitem (federal_bonus_depreciation g) k ;;
     Y' <- num_getitem (depreciation_lives g) k ;;
     b_s <- num_getitem b k ;;
     ret (pvf Y b_f r, pvf Y' b_s r)) s = (inr z, t) ->
    t = s /\
    exists dl df db,
      nums s !! depreciation_lives g = Some dl /\ has_key dl k = true /\
      nums s !! federal_bonus_depreciation g = Some df /\
      has_key df k = true /\
      nums s !! b = Some db /\ has_key db k = true).
  { intros pvf H'.
    apply bind_inr_inv in H' as (Y & s2 & G1 & H').
    apply num_getitem_inr_inv in G1 as (-> & dl & Hdl & HY).
    apply bind_inr_inv in H' as (b_f & s2 & G2 & H').
    apply num_getitem_inr_inv in G2 as (-> & df & Hdf & Hbf).
    apply bind_inr_inv in H' as (Y' & s2 & G3 & H').
    apply num_getitem_inr_inv in G3 as (-> & _).
    apply bind_inr_inv in H' as (b_s & s2 & G4 & H').
    apply num_getitem_inr_inv in G4 as (-> & db & Hdb & Hbs).
    injection H' as _ <-. split; [reflexivity|].
    exists dl, df, db. unfold has_key. rewrite HY, Hbf, Hbs. auto 10. }
  destruct (String.eqb m "dbsl") eqn:Ed.
  - apply String.eqb_eq in Ed.
    apply (Hbranch (fun Y bonus r => dbsl Y 2 bonus r)) in H
      as (-> & dl & df & db & ?).
    split; [reflexivity|]. exists dm, m, dl, df, db. intuition.
  - apply bind_inr_inv in H as (m' & s1 & H1 & H).
    apply str_getitem_inr_inv in H1 as (-> & dm' & Hdm' & Hm').
    rewrite Hdm in Hdm'. injection Hdm' as <-.
    rewrite Hm in Hm'. injection Hm' as <-.
    destruct (String.eqb m "sl") eqn:Es.
    + apply String.eqb_eq in Es.
      apply (Hbranch sl) in H as (-> & dl & df & db & ?).
      split; [reflexivity|]. exists dm, m, dl, df, db. intuition.
    + apply bind_inr_inv in H as (? & ? & _ & H). discriminate H.
Qed.

Lemma loop_body_processable s t g u_s b w tau it k v
    d_rates d_lives d_fed d_bonus d_itc d_methods t' :
  objects s g b it d_rates d_lives d_fed d_bonus d_itc d_methods ->
  in_call s t ->
  loop_body g u_s b w tau it (length (refs s)) (k, v) t = (inr tt, t') ->
  processable d_lives d_fed d_bonus d_itc d_methods k.
Proof.
  intros [Hr Hl Hm Hf Hb Hi] Ht H.
  pose proof (in_call_nums _ _ _ _ Ht Hl) as Hl'.
  pose proof (in_call_strs _ _ _ _ Ht Hm) as Hm'.
  pose proof (in_call_nums _ _ _ _ Ht Hf) as Hf'.
  pose proof (in_call_nums _ _ _ _ Ht Hb) as Hb'.
  pose proof (in_call_nums _ _ _ _ Ht Hi) as Hi'.
  destruct Ht as (_ & _ & Hrefs).
  unfold loop_body in H.
  apply bind_inr_inv in H as (z & s1 & H1 & H).
  apply depreciation_pv_inr_inv in H1
    as (-> & dm & m & dl & df & db & Hdm & Hmk & Hvalid & Hdl & Hkl &
        Hdf & Hkf & Hdb & Hkb).
  rewrite Hm' in Hdm. injection Hdm as <-.
  rewrite Hl' in Hdl. injection Hdl as <-.
  rewrite Hf' in Hdf. injection Hdf as <-.
  rewrite Hb' in Hdb. injection Hdb as <-.
  apply bind_inr_inv in H as (delta & s1 & H1 & H).
  apply num_getitem_inr_inv in H1 as (-> & _).
  apply bind_inr_inv in H as (itc & s1 & H1 & H).
  apply num_getitem_inr_inv in H1 as (-> & di & Hdi & Hitc).
  rewrite Hi' in Hdi. injection Hdi as <-.
  apply bind_inr_inv in H as (rho & s1 & H1 & H).
  apply lift_inr_inv in H1 as (-> & _).
  apply bind_inr_inv in H as (d & s1 & H1 & H).
  apply ref_getitem_inr_inv in H1 as (-> & dd & Hdd & Hd).
  rewrite Hrefs, list_lookup_middle in Hdd by reflexivity.
  injection Hdd as <-. rewrite asset_refs_get in Hd.
  destruct (asset_index k) as [i|] eqn:Hidx; [|discriminate].
  unfold processable. repeat split; eauto using asset_index_elem.
  unfold has_key. now rewrite Hitc.
Qed.

End Inversion.

Lemma running_in_call s c ds out :
  length ds = 3%nat -> in_call s (running s c ds out).
Proof. intros H. repeat split. exists ds. auto. Qed.

(** ** Printing and key errors, through [bind] *)

Lemma prints_on_assertion_bind {A B : Type} (m : M A) (f : A -> M B) :
  prints_on_assertion m -> (forall a, prints_on_assertion (f a)) ->
  prints_on_assertion (bind m f).
Proof.
  intros Hm Hf s. unfold bind. specialize (Hm s).
  destruct (m s) as [[e|a] t].
  - exact Hm.
  - specialize (Hf a t). destruct (f a t) as [[[]|b] t'];
      rewrite Hf; now rewrite Hm.
Qed.

(** A computation that neither prints nor fails the assertion. *)
Lemma prints_on_assertion_silent {A : Type} (m : M A) :
  (forall s, stdout (m s).2 = stdout s /\ (m s).1 <> inl AssertionError) ->
  prints_on_assertion m.
Proof.
  intros H s. specialize (H s). destruct (m s) as [[[]|a] t]; cbn in H;
    destruct H as [H1 H2]; try exact H1. now destruct H2.
Qed.

Lemma prints_on_assertion_num_getitem l k :
  prints_on_assertion (num_getitem l k).
Proof.
  apply prints_on_assertion_silent. intros s. unfold num_getitem.
  destruct (nums s !! l) as [d|]; [destruct (dict_get d k)|]; now cbn.
Qed.

Lemma prints_on_assertion_str_getitem l k :
  prints_on_assertion (str_getitem l k).
Proof.
  apply prints_on_assertion_silent. intros s. unfold str_getitem.
  destruct (strs s !! l) as [d|]; [destruct (dict_get d k)|]; now cbn.
Qed.

Lemma prints_on_assertion_ref_getitem l k :
  prints_on_assertion (ref_getitem l k).
Proof.
  apply prints_on_assertion_silent. intros s. unfold ref_getitem.
  destruct (refs s !! l) as [d|]; [destruct (dict_get d k)|]; now cbn.
Qed.

Lemma prints_on_assertion_num_setitem l k v :
  prints_on_assertion (num_setitem l k v).
Proof.
  apply prints_on_assertion_silent. intros s. unfold num_setitem.
  destruct (nums s !! l) as [d|]; now cbn.
Qed.

Lemma prints_on_assertion_num_items l : prints_on_assertion (num_items l).
Proof.
  apply prints_on_assertion_silent. intros s. unfold num_items.
  destruct (nums s !! l) as [d|]; now cbn.
Qed.

Lemma prints_on_assertion_lift {A : Type} (x : exn + A) :
  x <> inl AssertionError -> prints_on_assertion (lift x).
Proof. intros H. now apply prints_on_assertion_silent. Qed.

(** [eq_coc_state] raises nothing but [ZeroDivisionError]. *)
Lemma eq_coc_state_raises (delta z_f z_s w u_f u_s tau itc p r : R) e :
  eq_coc_state delta z_f z_s w u_f u_s tau itc p r = inl e ->
  e = ZeroDivisionError.
Proof.
  destruct (eq_coc_state_cases delta z_f z_s w u_f u_s tau itc p r)
    as [[_ ->]|[_ ->]]; [discriminate|now intros [= <-]].
Qed.

Lemma prints_on_assertion_ret {A : Type} (a : A) :
  prints_on_assertion (ret a).
Proof. now apply prints_on_assertion_silent. Qed.

Lemma prints_on_assertion_for_each {A : Type} (xs : list A)
    (body : A -> M unit) :
  (forall x, prints_on_assertion (body x)) ->
  prints_on_assertion (for_each xs body).
Proof.
  intros Hbody. induction xs as [|x xs' IH]; cbn [for_each].
  - apply prints_on_assertion_ret.
  - apply prints_on_assertion_bind; [apply Hbody|]. intros ?. exact IH.
Qed.

Lemma raises_key_in_bind {A B : Type} (K : list string) (m : M A)
    (f : A -> M B) :
  raises_key_in K m -> (forall a, raises_key_in K (f a)) ->
  raises_key_in K (bind m f).
Proof.
  intros Hm Hf s k. unfold bind. specialize (Hm s k).
  destruct (m s) as [[e|a] t]; [|apply Hf].
  cbn in *. intros [= ->]. now apply Hm.
Qed.

Lemma raises_key_in_weaken {A : Type} (K K' : list string) (m : M A) :
  K ⊆ K' -> raises_key_in K m -> raises_key_in K' m.
Proof. intros HK Hm s k H. apply HK, (Hm s k H). Qed.

Lemma raises_key_in_num_getitem l k : raises_key_in [k] (num_getitem l k).
Proof.
  intros s k'. unfold num_getitem.
  destruct (nums s !! l) as [d|]; [destruct (dict_get d k)|]; cbn;
    try discriminate.
  intros [= <-]. apply list_elem_of_here.
Qed.

Lemma raises_key_in_str_getitem l k : raises_key_in [k] (str_getitem l k).
Proof.
  intros s k'. unfold str_getitem.
  destruct (strs s !! l) as [d|]; [destruct (dict_get d k)|]; cbn;
    try discriminate.
  intros [= <-]. apply list_elem_of_here.
Qed.

Lemma raises_key_in_ref_getitem l k : raises_key_in [k] (ref_getitem l k).
Proof.
  intros s k'. unfold ref_getitem.
  destruct (refs s !! l) as [d|]; [destruct (dict_get d k)|]; cbn;
    try discriminate.
  intros [= <-]. apply list_elem_of_here.
Qed.

Lemma raises_key_in_num_setitem K l k v :
  raises_key_in K (num_setitem l k v).
Proof.
  intros s k'. unfold num_setitem.
  destruct (nums s !! l) as [d|]; cbn; discriminate.
Qed.

Lemma raises_key_in_lift {A : Type} K (x : exn + A) :
  (forall k, x <> inl (KeyError k)) -> raises_key_in K (lift x).
Proof. intros H s k Hx. cbn in Hx. now destruct (H k). Qed.

Lemma raises_key_in_ret {A : Type} K (a : A) : raises_key_in K (ret a).
Proof. intros s k. cbn. discriminate. Qed.

Section Effects.
Context {L : CCC}.

Lemma prints_on_assertion_depreciation_pv g b k r :
  prints_on_assertion (depreciation_pv g b k r).
Proof.
  unfold depreciation_pv.
  apply prints_on_assertion_bind; [apply prints_on_assertion_str_getitem|].
  intros m. destruct (String.eqb m "dbsl").
  - repeat (apply prints_on_assertion_bind;
            [apply prints_on_assertion_num_getitem|]; intros ?).
    apply prints_on_assertion_ret.
  - apply prints_on_assertion_bind; [apply prints_on_assertion_str_getitem|].
    intros m'. destruct (String.eqb m' "sl").
    + repeat (apply prints_on_assertion_bind;
              [apply prints_on_assertion_num_getitem|]; intros ?).
      apply prints_on_assertion_ret.
    + intros s. reflexivity.
Qed.

Lemma prints_on_assertion_loop_body g u_s b w tau it out item :
  prints_on_assertion (loop_body g u_s b w tau it out item).
Proof.
  destruct item as [k v]. unfold loop_body.
  apply prints_on_assertion_bind;
    [apply prints_on_assertion_depreciation_pv|]. intros z.
  repeat (apply prints_on_assertion_bind;
          [apply prints_on_assertion_num_getitem|]; intros ?).
  apply prints_on_assertion_bind.
  { apply prints_on_assertion_lift. intros H.
    apply eq_coc_state_raises in H. discriminate H. }
  intros rho. cbv zeta.
  repeat (apply prints_on_assertion_bind;
          [apply prints_on_assertion_ref_getitem|]; intros ?;
          apply prints_on_assertion_bind;
          [apply prints_on_assertion_num_setitem|]; intros ?).
  apply prints_on_assertion_bind;
    [apply prints_on_assertion_ref_getitem|]. intros ?.
  apply prints_on_assertion_num_setitem.
Qed.

Lemma prints_on_assertion_compute_outputs g u_s b w tau it :
  prints_on_assertion (compute_outputs g u_s b w tau it).
Proof.
  unfold compute_outputs.
  apply prints_on_assertion_bind;
    [now apply prints_on_assertion_silent|]. intros ?.
  do 3 (apply prints_on_assertion_bind;
        [now apply prints_on_assertion_silent|]; intros ?).
  apply prints_on_assertion_bind;
    [now apply prints_on_assertion_silent|]. intros ?.
  apply prints_on_assertion_bind; [apply prints_on_assertion_num_items|].
  intros items.
  apply prints_on_assertion_bind;
    [apply prints_on_assertion_for_each;
     apply prints_on_assertion_loop_body|].
  intros ?. apply prints_on_assertion_ret.
Qed.

Lemma raises_key_in_depreciation_pv g b k r :
  raises_key_in [k] (depreciation_pv g b k r).
Proof.
  unfold depreciation_pv.
  apply raises_key_in_bind; [apply raises_key_in_str_getitem|].
  intros m. destruct (String.eqb m "dbsl").
  - repeat (apply raises_key_in_bind;
            [apply raises_key_in_num_getitem|]; intros ?).
    apply raises_key_in_ret.
  - apply raises_key_in_bind; [apply raises_key_in_str_getitem|].
    intros m'. destruct (String.eqb m' "sl").
    + repeat (apply raises_key_in_bind;
              [apply raises_key_in_num_getitem|]; intros ?).
      apply raises_key_in_ret.
    + intros s k'. cbn. discriminate.
Qed.

Lemma raises_key_in_loop_body g u_s b w tau it out k v :
  raises_key_in [k] (loop_body g u_s b w tau it out (k, v)).
Proof.
  unfold loop_body.
  apply raises_key_in_bind; [apply raises_key_in_depreciation_pv|].
  intros z.
  repeat (apply raises_key_in_bind;
          [apply raises_key_in_num_getitem|]; intros ?).
  apply raises_key_in_bind.
  { apply raises_key_in_lift. intros k' H.
    apply eq_coc_state_raises in H. discriminate H. }
  intros rho. cbv zeta.
  repeat (apply raises_key_in_bind;
          [apply raises_key_in_ref_getitem|]; intros ?;
          apply raises_key_in_bind;
          [apply raises_key_in_num_setitem|]; intros ?).
  apply raises_key_in_bind; [apply raises_key_in_ref_getitem|]. intros ?.
  apply raises_key_in_num_setitem.
Qed.

Lemma raises_key_in_for_each g u_s b w tau it out (items : dict R) :
  raises_key_in (dict_keys items)
                (for_each items (loop_body g u_s b w tau it out)).
Proof.
  induction items as [|[k v] items IH]; cbn [for_each].
  - apply raises_key_in_ret.
  - apply raises_key_in_bind.
    + eapply raises_key_in_weaken; [|apply raises_key_in_loop_body].
      intros x Hx. apply list_elem_of_singleton in Hx as ->.
      apply list_elem_of_here.
    + intros ?. eapply raises_key_in_weaken; [|exact IH].
      intros x Hx. now apply list_elem_of_further.
Qed.

Lemma for_each_processable s g u_s b w tau it
    d_rates d_lives d_fed d_bonus d_itc d_methods (items : dict R) :
  objects s g b it d_rates d_lives d_fed d_bonus d_itc d_methods ->
  forall t t',
    in_call s t ->
    for_each items (loop_body g u_s b w tau it (length (refs s))) t
    = (inr tt, t') ->
    forall k, k ∈ dict_keys items ->
      processable d_lives d_fed d_bonus d_itc d_methods k.
Proof.
  intros Hobj. induction items as [|[k v] items IH]; intros t t' Ht H k' Hk'.
  - now apply elem_of_nil in Hk'.
  - cbn [for_each] in H. apply bind_inr_inv in H as ([] & t1 & H1 & H).
    pose proof (triple_loop_body s g u_s b w tau it (k, v) t Ht) as Ht1.
    rewrite H1 in Ht1.
    cbn in Hk'. apply elem_of_cons in Hk' as [->|Hk'].
    + eapply loop_body_processable; [exact Hobj|exact Ht|exact H1].
    + eapply (IH t1 t'); [exact Ht1|exact H|exact Hk'].
Qed.

End Effects.

(** ** The script's run *)

Lemma extends_running s t c ds out :
  extends s t -> extends s (running t c ds out).
Proof.
  intros [Hn Hs]. split; cbn; [|exact Hs].
  now apply prefix_app_r.
Qed.

Lemma extends_well_configured (s : state) :
  extends script_state s ->
  well_configured s script_parameters 4 3 machines buildings intangibles
    [("machines", 0.0); ("buildings", 0.0); ("intangibles", 0.0)]
    [("machines", 0.015); ("buildings", 0.025); ("intangibles", 0.01)].
Proof.
  intros Hs. split.
  - now apply script_configuration.
  - eapply extends_nums; [exact Hs|reflexivity].
  - eapply extends_nums; [exact Hs|reflexivity].
  - repeat split.
  - intros k Hk. apply (asset_types_cases k); [exact Hk|..];
      split; reflexivity.
Qed.

Lemma script_well_configured :
  well_configured script_state script_parameters 4 3
    machines buildings intangibles
    [("machines", 0.0); ("buildings", 0.0); ("intangibles", 0.0)]
    [("machines", 0.015); ("buildings", 0.025); ("intangibles", 0.01)].
Proof. apply extends_well_configured, extends_refl. Qed.

(** The long form of three tables of results. *)
Lemma report_long_form (s : state)
    (x1 x2 x3 x4 x5 x6 x7 x8 x9 y1 y2 y3 y4 y5 y6 y7 y8 y9
     z1 z2 z3 z4 z5 z6 z7 z8 z9 : R) :
  exists df,
    report
      (pd.of_dict [("machines", results x1 x2 x3);
                   ("buildings", results x4 x5 x6);
                   ("intangibles", results x7 x8 x9)])
      (pd.of_dict [("machines", results y1 y2 y3);
                   ("buildings", results y4 y5 y6);
                   ("intangibles", results y7 y8 y9)])
      (pd.of_dict [("machines", results z1 z2 z3);
                   ("buildings", results z4 z5 z6);
                   ("intangibles", results z7 z8 z9)]) s
    = (inr df, s) /\
    pd.n_rows df = 27%nat /\
    pd.column_names df = ["Policy"; "output_var"; "asset_type"; "value"] /\
    long_keys df = product_keys.
Proof.
  eexists. split; [vm_compute; reflexivity|].
  split; [reflexivity|]. split; [reflexivity|].
  vm_compute. reflexivity.
Qed.

Section ScriptRun.

Context {L : CCC}.

(** A call of the script, in any store that holds the script's. *)
Lemma compute_outputs_script (s : state) (u_s w tau : R) :
  extends script_state s ->
  divisors_nonzero 0.21 u_s tau ->
  let p := script_parameters in
  compute_outputs p u_s 4 w tau 3 s
  = (inr (length (refs s)),
     running s (mkCall u_s 4 w tau 3)
             [asset_results p u_s w tau machines 0.0 0.015;
              asset_results p u_s w tau buildings 0.0 0.025;
              asset_results p u_s w tau intangibles 0.0 0.01] []).
Proof.
  intros Hs Hn p.
  apply (well_configured_run p 4%nat 3%nat s machines buildings intangibles
           _ _ _ _ _ _ _ _ u_s w tau (extends_well_configured s Hs));
    (reflexivity || exact Hn).
Qed.

Lemma DataFrame_running s c d1 d2 d3 out :
  DataFrame (length (refs s)) (running s c [d1; d2; d3] out)
  = (inr (pd.of_dict [("machines", d1); ("buildings", d2);
                      ("intangibles", d3)]),
     running s c [d1; d2; d3] out).
Proof. unfold DataFrame. now rewrite outputs_at_running. Qed.

(** The three calls of the script, and the store they leave. *)
Lemma scenarios_run :
  let p := script_parameters in
  let c1 := mkCall 0.043 4 0.003 0.00 3 in
  let c2 := mkCall 0.035 4 0.003 0.00 3 in
  let c3 := mkCall 0.043 4 0.000 0.00 3 in
  let ds u_s w := [asset_results p u_s w 0.00 machines 0.0 0.015;
                   asset_results p u_s w 0.00 buildings 0.0 0.025;
                   asset_results p u_s w 0.00 intangibles 0.0 0.01] in
  let table u_s w :=
    pd.of_dict [("machines", asset_results p u_s w 0.00 machines 0.0 0.015);
                ("buildings",
                 asset_results p u_s w 0.00 buildings 0.0 0.025);
                ("intangibles",
                 asset_results p u_s w 0.00 intangibles 0.0 0.01)] in
  let s1 := running script_state c1 (ds 0.043 0.003) [] in
  let s2 := running s1 c2 (ds 0.035 0.003) [] in
  let s3 := running s2 c3 (ds 0.043 0.000) [] in
  scenarios p script_state
  = (inr (table 0.043 0.003, table 0.035 0.003, table 0.043 0.000), s3).
Proof.
  intros p c1 c2 c3 ds table s1 s2 s3. unfold scenarios.
  change (u_s p) with 0.043. change (bonus_s p) with 4%nat.
  change (franchise_tax_rate p) with 0.003. change (tau_GR p) with 0.00.
  change (inv_tax_credit_s p) with 3%nat.
  assert (H1 : extends script_state s1)
    by apply extends_running, extends_refl.
  assert (H2 : extends script_state s2) by now apply extends_running.
  erewrite bind_inr; cycle 1.
  { apply compute_outputs_script; [apply extends_refl|].
    apply script_divisors. lra. }
  erewrite bind_inr; cycle 1.
  { apply DataFrame_running. }
  fold s1.
  erewrite bind_inr; cycle 1.
  { apply compute_outputs_script; [exact H1|].
    apply script_divisors. lra. }
  erewrite bind_inr; cycle 1.
  { apply DataFrame_running. }
  fold s2.
  erewrite bind_inr; cycle 1.
  { apply compute_outputs_script; [exact H2|].
    apply script_divisors. lra. }
  erewrite bind_inr; cycle 1.
  { apply DataFrame_running. }
  reflexivity.
Qed.

(** The script from its first line: the table it ends with and the store
    it leaves. *)
Lemma main_run :
  exists df,
    main empty_state = (inr df, (scenarios script_parameters script_state).2)
    /\ pd.n_rows df = 27%nat /\
    pd.column_names df = ["Policy"; "output_var"; "asset_type"; "value"] /\
    long_keys df = product_keys.
Proof.
  unfold main.
  rewrite (bind_inr _ _ _ _ _ define_parameters_run).
  pose proof scenarios_run as Hrun. cbv zeta in Hrun.
  rewrite (bind_inr _ _ _ _ _ Hrun). rewrite Hrun.
  cbn [fst snd]. unfold asset_results.
  match goal with
  | |- context [report _ _ _ ?t] => generalize t
  end.
  intros t. apply report_long_form.
Qed.

Lemma main_calls :
  calls (main empty_state).2
  = [mkCall 0.043 4 0.003 0.00 3; mkCall 0.035 4 0.003 0.00 3;
     mkCall 0.043 4 0.000 0.00 3].
Proof.
  destruct main_run as (df & -> & _). cbn [snd].
  pose proof scenarios_run as Hrun. cbv zeta in Hrun. rewrite Hrun.
  reflexivity.
Qed.

Lemma main_extends : extends script_state (main empty_state).2.
Proof.
  destruct main_run as (df & -> & _). cbn [snd].
  pose proof scenarios_run as Hrun. cbv zeta in Hrun. rewrite Hrun.
  cbn [snd]. do 3 apply extends_running. apply extends_refl.
Qed.

(** A call whose argument [bonus_s] holds machines only ends in the
    iteration for buildings. *)
Lemma machines_only_run :
  (compute_outputs script_parameters 0.043 5 0.003 0.00 3
                   machines_only_state).1
  = inl (KeyError "buildings").
Proof.
  erewrite (compute_outputs_run script_parameters 0.043 5%nat 0.003
              0.00 3%nat machines_only_state _ [("machines", 0.0)] _
              machines buildings intangibles);
    [|reflexivity|reflexivity
     |repeat split; [eexists; split; reflexivity|reflexivity..]..
     |reflexivity|reflexivity].
  erewrite outcome_of_done;
    [|reflexivity|reflexivity|reflexivity|apply script_divisors; lra].
  reflexivity.
Qed.

End ScriptRun.

(** ** Monotonicity of the cost of capital *)

(** The cost of capital does not fall when the franchise rate rises. *)
Lemma cost_of_capital_franchise_le
    (delta z_f z_s w w' u_f u_s tau itc p r : R) :
  tau < 1 -> w' <= w ->
  cost_of_capital delta z_f z_s w' u_f u_s tau itc p r
  <= cost_of_capital delta z_f z_s w u_f u_s tau itc p r.
Proof.
  intros Htau [Hw|Hw]; [|subst w'; apply Rle_refl].
  left. now apply cost_of_capital_franchise.
Qed.


(** * The claims *)



(** C2.  For an asset type [k] that [compute_outputs] processes, with the
    discount rate [r] of the call: the selector returns, and the cost of
    capital stored for [k] is computed from, the present values
    [dbsl(life, 2, bonus, r)] when the method is "dbsl" and
    [sl(life, bonus, r)] when it is "sl", the federal value with the federal
    bonus rate and the state value with the state bonus rate.  What is
    stored is what [eq_coc_state] returns on these two values; if it
    raises, so does the call. *)
Theorem depreciation_routing {L : CCC} (g : globals) (u_s : R)
    (bonus_s : nat) (franchise_tax_rate tau_GR : R) (inv_tax_credit : nat)
    (s : state)
    (a1 a2 a3 : asset_data) (db di : dict R) (k : string) (a : asset_data)
    (b_s itc : R) :
  configuration s g a1 a2 a3 ->
  nums s !! bonus_s = Some db ->
  nums s !! inv_tax_credit = Some di ->
  (forall k', k' ∈ asset_types ->
     has_key db k' = true /\ has_key di k' = true) ->
  valid_method (a_method a1) = true ->
  valid_method (a_method a2) = true ->
  valid_method (a_method a3) = true ->
  (k, a) ∈ [("machines", a1); ("buildings", a2); ("intangibles", a3)] ->
  dict_get db k = Some b_s ->
  dict_get di k = Some itc ->
  let r := calc_r (u_f g + u_s - u_f g * u_s) (nominal_int_rate g)
                  (inflation_rate g) (nominal_int_rate g)
                  (fraction_financed_w_debt g) (int_haircut g) (E g) 0.0 in
  exists z_f z_s,
    ((a_method a = "dbsl" /\
      z_f = dbsl (a_life a) 2 (a_bonus_f a) r /\
      z_s = dbsl (a_life a) 2 b_s r) \/
     (a_method a = "sl" /\
      z_f = sl (a_life a) (a_bonus_f a) r /\
      z_s = sl (a_life a) b_s r)) /\
    depreciation_pv g bonus_s k r s = (inr (z_f, z_s), s) /\
    match eq_coc_state (a_delta a) z_f z_s franchise_tax_rate (u_f g) u_s
                       tau_GR itc (inflation_rate g) r with
    | inr rho =>
        exists out,
          evaluate g u_s bonus_s franchise_tax_rate tau_GR inv_tax_credit s
          = Some out /\
          output out k "rho" = Some rho
    | inl e =>
        (compute_outputs g u_s bonus_s franchise_tax_rate tau_GR
                         inv_tax_credit s).1 = inl e
    end.
Proof.
  intros Hconf Hb Hi Hkeys' Hv1 Hv2 Hv3 Hk Hbs Hitc r.
  assert (Hwc : well_configured s g bonus_s inv_tax_credit a1 a2 a3 db di)
    by (split; auto).
  destruct Hconf as [[dr [Hdr Hkeys]] H1 H2 H3].
  assert (Ha : configured s g k a /\ valid_method (a_method a) = true).
  { rewrite !elem_of_cons, elem_of_nil in Hk.
    destruct Hk as [Hk|[Hk|[Hk|[]]]]; injection Hk as -> ->; auto. }
  destruct Ha as [Hc Hv].
  exists (pv (a_method a) (a_life a) (a_bonus_f a) r),
         (pv (a_method a) (a_life a) b_s r).
  split; [|split].
  - apply valid_method_true in Hv as [Hm|Hm]; [left|right];
      unfold pv; rewrite Hm; auto.
  - destruct Hc as ([dm [Hm1 Hm2]] & _ & Hl & Hf).
    unfold store_get in Hl, Hf.
    destruct (nums s !! depreciation_lives g) eqn:Hl1; [|discriminate].
    destruct (nums s !! federal_bonus_depreciation g) eqn:Hf1;
      [|discriminate].
    eapply depreciation_pv_inr; eauto.
  - match goal with
    | |- context [eq_coc_state ?d ?zf ?zs ?w' ?uf ?us ?t ?i ?p ?r'] =>
        destruct (eq_coc_state_cases d zf zs w' uf us t i p r')
          as [[Hn ->]|[Hn ->]]
    end.
    + destruct (well_configured_values _ _ _ _ _ _ _ _ _ Hwc)
        as (b1 & b2 & b3 & i1 & i2 & i3 &
            Hb1 & Hi1 & Hb2 & Hi2 & Hb3 & Hi3).
      rewrite (well_configured_evaluate g bonus_s inv_tax_credit s a1 a2 a3
                 db di b1 b2 b3 i1 i2 i3) by assumption.
      eexists. split; [reflexivity|].
      rewrite !elem_of_cons, elem_of_nil in Hk.
      destruct Hk as [Hk|[Hk|[Hk|[]]]]; injection Hk as -> ->.
      * rewrite Hb1 in Hbs. rewrite Hi1 in Hitc.
        injection Hbs as ->. injection Hitc as ->. reflexivity.
      * rewrite Hb2 in Hbs. rewrite Hi2 in Hitc.
        injection Hbs as ->. injection Hitc as ->. reflexivity.
      * rewrite Hb3 in Hbs. rewrite Hi3 in Hitc.
        injection Hbs as ->. injection Hitc as ->. reflexivity.
    + now rewrite (well_configured_zero g bonus_s inv_tax_credit s a1 a2 a3
                     db di u_s franchise_tax_rate tau_GR Hwc Hn).
Qed.

Lemma depreciation_routing_witness :
  let r := calc_r_formula (0.21 + 0.043 - 0.21 * 0.043) 0.06 0.02 0.06
                          0.0 0.0 0.06 0.0 in
  exists z_f z_s rho out,
    (("dbsl" = "dbsl" /\
      z_f = dbsl_formula 7 2 0.4 r /\ z_s = dbsl_formula 7 2 0.0 r) \/
     ("dbsl" = "sl" /\
      z_f = sl_formula 7 0.4 r /\ z_s = sl_formula 7 0.0 r)) /\
    @depreciation_pv ccc_formulas script_parameters 4 "machines" r
                     script_state
    = (inr (z_f, z_s), script_state) /\
    eq_coc_state 0.1031 z_f z_s 0.003 0.21 0.043 0.00 0.015 0.02 r
    = inr rho /\
    @evaluate ccc_formulas script_parameters 0.043 4 0.003 0.00 3
              script_state
    = Some out /\
    output out "machines" "rho" = Some rho.
Proof.
  intros r.
  destruct (@depreciation_routing ccc_formulas script_parameters 0.043
              4%nat 0.003 0.00 3%nat script_state
              machines buildings intangibles
              [("machines", 0.0); ("buildings", 0.0); ("intangibles", 0.0)]
              [("machines", 0.015); ("buildings", 0.025);
               ("intangibles", 0.01)]
              "machines" machines 0.0 0.015)
    as (z_f & z_s & Hroute & Hpv & Hrho).
  - apply script_configuration, extends_refl.
  - reflexivity.
  - reflexivity.
  - intros k' Hk'. unfold asset_types in Hk'.
    rewrite !elem_of_cons, elem_of_nil in Hk'.
    destruct Hk' as [->|[->|[->|[]]]]; split; reflexivity.
  - reflexivity.
  - reflexivity.
  - reflexivity.
  - apply list_elem_of_here.
  - reflexivity.
  - reflexivity.
  - cbn [a_delta machines globals_of script_parameters u_f inflation_rate]
      in Hrho.
    assert (Hn : divisors_nonzero 0.21 0.043 0.00)
      by (apply script_divisors; lra).
    rewrite (eq_coc_state_inr _ _ _ _ _ _ _ _ _ _ Hn) in Hrho.
    destruct Hrho as (out & Hev & Hout).
    exists z_f, z_s. eexists. exists out.
    split; [exact Hroute|]. split; [exact Hpv|].
    split; [apply (eq_coc_state_inr _ _ _ _ _ _ _ _ _ _ Hn)|].
    split; [exact Hev|exact Hout].
Defined.




(** C4.  In the script's configuration, with every other argument as in
    the script, the call with the franchise rate 0.0 stores, for each of
    the three asset types, a cost of capital strictly below that of the
    call with the franchise rate 0.003, whatever the library computes; and
    a marginal effective tax rate strictly below it, when the library
    computes what it documents. *)
Theorem franchise_tax_removal {L : CCC} (s s' : state) (k : string) :
  extends script_state s -> extends script_state s' -> k ∈ asset_types ->
  exists out out' rho rho' metr metr',
    evaluate script_parameters 0.043 4 0.003 0.00 3 s = Some out /\
    evaluate script_parameters 0.043 4 0.0 0.00 3 s' = Some out' /\
    output out k "rho" = Some rho /\ output out' k "rho" = Some rho' /\
    output out k "metr" = Some metr /\ output out' k "metr" = Some metr' /\
    rho' < rho /\ (ccc_documented L -> metr' < metr).
Proof.
  intros Hs Hs' Hk.
  assert (Hn : divisors_nonzero 0.21 0.043 0.00)
    by (apply script_divisors; lra).
  pose proof (evaluate_script s 0.043 0.003 0.00 Hs Hn) as Hout.
  pose proof (evaluate_script s' 0.043 0.0 0.00 Hs' Hn) as Hout'.
  cbv zeta in Hout, Hout'.
  change (bonus_s script_parameters) with 4%nat in Hout, Hout'.
  change (inv_tax_credit_s script_parameters) with 3%nat in Hout, Hout'.
  rewrite Hout, Hout'. clear Hout Hout'.
  assert (Hcmp : forall a itc,
            (k, a, itc) ∈ [("machines", machines, 0.015);
                           ("buildings", buildings, 0.025);
                           ("intangibles", intangibles, 0.01)] ->
            rho_of script_parameters 0.043 0.0 0.00 a 0.0 itc
            < rho_of script_parameters 0.043 0.003 0.00 a 0.0 itc /\
            (ccc_documented L ->
             metr_of script_parameters 0.043 0.0 0.00 a 0.0 itc
             < metr_of script_parameters 0.043 0.003 0.00 a 0.0 itc)).
  { intros a itc Hin.
    assert (Hrho : rho_of script_parameters 0.043 0.0 0.00 a 0.0 itc
                   < rho_of script_parameters 0.043 0.003 0.00 a 0.0 itc)
      by (apply cost_of_capital_franchise; lra).
    split; [exact Hrho|]. intros HL. unfold metr_of.
    rewrite !(eq_metr_documented L HL), (script_after_tax_rate HL).
    apply eq_metr_formula_increasing; [cbn; lra| |exact Hrho].
    apply (script_rho_positive HL _ _ k); [exact Hin|lra|lra]. }
  revert Hcmp. pattern k. apply (asset_types_cases k); [exact Hk|..];
    intros Hcmp; do 2 eexists;
    [destruct (Hcmp machines 0.015) as [H1 H2]; [apply list_elem_of_here|]
    |destruct (Hcmp buildings 0.025) as [H1 H2];
       [apply list_elem_of_further, list_elem_of_here|]
    |destruct (Hcmp intangibles 0.01) as [H1 H2];
       [do 2 apply list_elem_of_further; apply list_elem_of_here|]];
    do 4 eexists; (split; [reflexivity|]); (split; [reflexivity|]);
    (split; [reflexivity|]); (split; [reflexivity|]);
    (split; [reflexivity|]); (split; [reflexivity|]); split; assumption.
Qed.

Lemma franchise_tax_removal_witness :
  exists out out' rho rho' metr metr',
    @evaluate ccc_formulas script_parameters 0.043 4 0.003 0.00 3
              script_state = Some out /\
    @evaluate ccc_formulas script_parameters 0.043 4 0.0 0.00 3
              script_state = Some out' /\
    output out "machines" "rho" = Some rho /\
    output out' "machines" "rho" = Some rho' /\
    output out "machines" "metr" = Some metr /\
    output out' "machines" "metr" = Some metr' /\
    rho' < rho /\ metr' < metr.
Proof.
  destruct (@franchise_tax_removal ccc_formulas script_state script_state
              "machines" (extends_refl _) (extends_refl _)
              (list_elem_of_here _ _))
    as (out & out' & rho & rho' & metr & metr' &
        H1 & H2 & H3 & H4 & H5 & H6 & H7 & H8).
  exists out, out', rho, rho', metr, metr'.
  repeat (split; [assumption|]).
  exact (H8 ccc_formulas_documented).
Defined.

(** C5.  In the script's configuration, with every other argument as in
    the script and a library that computes what it documents, the call
    with the state rate 0.035 stores, for each of the three asset types, a
    marginal effective tax rate strictly below that of the call with the
    state rate 0.043. *)
Theorem state_rate_cut {L : CCC} (s s' : state) (k : string) :
  ccc_documented L ->
  extends script_state s -> extends script_state s' -> k ∈ asset_types ->
  exists out out' metr metr',
    evaluate script_parameters 0.043 4 0.003 0.00 3 s = Some out /\
    evaluate script_parameters 0.035 4 0.003 0.00 3 s' = Some out' /\
    output out k "metr" = Some metr /\ output out' k "metr" = Some metr' /\
    metr' < metr.
Proof.
  intros documented Hs Hs' Hk.
  assert (Hn : divisors_nonzero 0.21 0.043 0.00)
    by (apply script_divisors; lra).
  assert (Hn' : divisors_nonzero 0.21 0.035 0.00)
    by (apply script_divisors; lra).
  pose proof (evaluate_script s 0.043 0.003 0.00 Hs Hn) as Hout.
  pose proof (evaluate_script s' 0.035 0.003 0.00 Hs' Hn') as Hout'.
  cbv zeta in Hout, Hout'.
  change (bonus_s script_parameters) with 4%nat in Hout, Hout'.
  change (inv_tax_credit_s script_parameters) with 3%nat in Hout, Hout'.
  rewrite Hout, Hout'. clear Hout Hout'.
  assert (Hcmp : forall a itc,
            (k, a, itc) ∈ [("machines", machines, 0.015);
                           ("buildings", buildings, 0.025);
                           ("intangibles", intangibles, 0.01)] ->
            metr_of script_parameters 0.035 0.003 0.00 a 0.0 itc
            < metr_of script_parameters 0.043 0.003 0.00 a 0.0 itc).
  { intros a itc Hin. unfold metr_of.
    rewrite !(eq_metr_documented L documented),
            (script_after_tax_rate documented).
    apply eq_metr_formula_increasing; [cbn; lra| |].
    - apply (script_rho_positive documented _ _ k); [exact Hin|lra|lra].
    - unfold rho_of. cbv zeta. rewrite !(script_discount_rate documented).
      pose proof (script_net_factor documented k a itc Hin) as Hnet.
      cbv zeta in Hnet.
      assert (Hd : 0 <= a_delta a).
      { rewrite !elem_of_cons, elem_of_nil in Hin.
        destruct Hin as [Hin|[Hin|[Hin|[]]]]; injection Hin as -> -> ->;
          cbn; lra. }
      apply cost_of_capital_state_rate; [cbn; lra|exact Hnet]. }
  revert Hcmp. pattern k. apply (asset_types_cases k); [exact Hk|..];
    intros Hcmp; do 4 eexists;
    (split; [reflexivity|]); (split; [reflexivity|]);
    (split; [reflexivity|]); (split; [reflexivity|]); apply Hcmp.
  - apply list_elem_of_here.
  - apply list_elem_of_further, list_elem_of_here.
  - do 2 apply list_elem_of_further; apply list_elem_of_here.
Qed.

Lemma state_rate_cut_witness :
  exists out out' metr metr',
    @evaluate ccc_formulas script_parameters 0.043 4 0.003 0.00 3
              script_state = Some out /\
    @evaluate ccc_formulas script_parameters 0.035 4 0.003 0.00 3
              script_state = Some out' /\
    output out "intangibles" "metr" = Some metr /\
    output out' "intangibles" "metr" = Some metr' /\
    metr' < metr.
Proof.
  apply (@state_rate_cut ccc_formulas script_state script_state
           "intangibles" ccc_formulas_documented).
  - apply extends_refl.
  - apply extends_refl.
  - do 2 apply list_elem_of_further. apply list_elem_of_here.
Defined.

(** C6.  The script runs to its end, and the long-form table it builds has
    27 rows, whose (Policy, output_var, asset_type) keys are the 3 x 3 x 3
    combinations of policy, output variable and asset type, each once. *)
Theorem long_form_rows {L : CCC} :
  exists df s,
    main empty_state = (inr df, s) /\
    pd.n_rows df = 27%nat /\
    pd.column_names df = ["Policy"; "output_var"; "asset_type"; "value"] /\
    long_keys df = product_keys /\
    NoDup (long_keys df).
Proof.
  destruct main_run as (df & Hmain & Hrows & Hcols & Hkeys).
  exists df. eexists. split; [exact Hmain|].
  split; [exact Hrows|]. split; [exact Hcols|]. split; [exact Hkeys|].
  rewrite Hkeys. apply product_keys_NoDup.
Qed.

(** C7, as amended.  [compute_outputs] is entered three times.  The three
    calls are different from each other: the second has the state rate
    0.035 where the others have 0.043, the third the franchise rate 0.000
    where the others have 0.003.  The state bonus-depreciation map, the
    gross-receipts rate and the state investment-tax-credit map are the
    same in the three calls, and the two maps hold at the end what they
    held at the start. *)
Theorem three_scenarios {L : CCC} :
  let s := (main empty_state).2 in
  exists c1 c2 c3,
    calls s = [c1; c2; c3] /\
    (call_u_s c1 = 0.043 /\ call_u_s c2 = 0.035 /\ call_u_s c3 = 0.043) /\
    (call_franchise_tax_rate c1 = 0.003 /\
     call_franchise_tax_rate c2 = 0.003 /\
     call_franchise_tax_rate c3 = 0.000) /\
    (call_tau_GR c1 = 0.00 /\ call_tau_GR c2 = 0.00 /\
     call_tau_GR c3 = 0.00) /\
    (call_bonus_s c1 = bonus_s script_parameters /\
     call_bonus_s c2 = bonus_s script_parameters /\
     call_bonus_s c3 = bonus_s script_parameters) /\
    (call_inv_tax_credit c1 = inv_tax_credit_s script_parameters /\
     call_inv_tax_credit c2 = inv_tax_credit_s script_parameters /\
     call_inv_tax_credit c3 = inv_tax_credit_s script_parameters) /\
    (call_u_s c1 <> call_u_s c2 /\ call_u_s c2 <> call_u_s c3 /\
     call_franchise_tax_rate c1 <> call_franchise_tax_rate c3) /\
    nums s !! bonus_s script_parameters
    = nums script_state !! bonus_s script_parameters /\
    nums s !! inv_tax_credit_s script_parameters
    = nums script_state !! inv_tax_credit_s script_parameters.
Proof.
  intros s.
  exists (mkCall 0.043 4 0.003 0.00 3), (mkCall 0.035 4 0.003 0.00 3),
         (mkCall 0.043 4 0.000 0.00 3).
  split; [apply main_calls|].
  cbn [call_u_s call_franchise_tax_rate call_tau_GR call_bonus_s
       call_inv_tax_credit bonus_s inv_tax_credit_s script_parameters].
  repeat split; try lra.
  - apply (extends_nums script_state s); [apply main_extends|reflexivity].
  - apply (extends_nums script_state s); [apply main_extends|reflexivity].
Qed.

(** C7, as stated, fails: the three calls do not differ in the state
    bonus-depreciation map nor in the state investment-tax-credit map; each
    call is passed the same two objects. *)
Lemma scenarios_share_maps :
  let cs := calls (@main ccc_formulas empty_state).2 in
  ~ (exists c c', c ∈ cs /\ c' ∈ cs /\
                  (call_bonus_s c <> call_bonus_s c' \/
                   call_inv_tax_credit c <> call_inv_tax_credit c')).
Proof.
  intros cs (c & c' & Hc & Hc' & Hne).
  assert (Hall : forall x, x ∈ cs ->
            call_bonus_s x = 4%nat /\ call_inv_tax_credit x = 3%nat).
  { intros x Hx. subst cs. rewrite main_calls in Hx.
    rewrite !elem_of_cons, elem_of_nil in Hx.
    destruct Hx as [->|[->|[->|[]]]]; split; reflexivity. }
  destruct (Hall c Hc) as [Hb Hi], (Hall c' Hc') as [Hb' Hi'].
  destruct Hne as [Hne|Hne]; apply Hne; congruence.
Qed.

(** C8.  A call of [compute_outputs] leaves the four global dictionaries
    and the two dictionaries passed as arguments as it found them,
    whatever the arguments, and whether it returns or raises. *)
Theorem compute_outputs_frame {L : CCC} (g : globals) (u_s : R)
    (bonus_s : nat) (franchise_tax_rate tau_GR : R) (inv_tax_credit : nat)
    (s : state)
    (d_rates d_lives d_fed d_bonus d_itc : dict R) (d_methods : dict string) :
  nums s !! depreciation_rates g = Some d_rates ->
  nums s !! depreciation_lives g = Some d_lives ->
  strs s !! depreciation_methods g = Some d_methods ->
  nums s !! federal_bonus_depreciation g = Some d_fed ->
  nums s !! bonus_s = Some d_bonus ->
  nums s !! inv_tax_credit = Some d_itc ->
  let s' := (compute_outputs g u_s bonus_s franchise_tax_rate tau_GR
                             inv_tax_credit s).2 in
  nums s' !! depreciation_rates g = Some d_rates /\
  nums s' !! depreciation_lives g = Some d_lives /\
  strs s' !! depreciation_methods g = Some d_methods /\
  nums s' !! federal_bonus_depreciation g = Some d_fed /\
  nums s' !! bonus_s = Some d_bonus /\
  nums s' !! inv_tax_credit = Some d_itc.
Proof.
  intros Hr Hl Hm Hf Hb Hi s'.
  destruct (compute_outputs_in_call g u_s bonus_s franchise_tax_rate tau_GR
              inv_tax_credit s) as ([ds [Hn _]] & Hs & _).
  fold s' in Hn, Hs. rewrite Hn, Hs.
  repeat split; try (now apply lookup_app_l_Some); exact Hm.
Qed.

Lemma compute_outputs_frame_witness :
  let s' := (@compute_outputs ccc_formulas script_parameters
               0.043 4 0.003 0.00 3 script_state).2 in
  nums s' !! 1%nat
  = Some [("machines", 0.1031); ("buildings", 0.0314); ("intangibles", 0.33)]
  /\ nums s' !! 2%nat
     = Some [("machines", 7); ("buildings", 39); ("intangibles", 3)]
  /\ strs s' !! 0%nat
     = Some [("machines", "dbsl"); ("buildings", "sl"); ("intangibles", "sl")]
  /\ nums s' !! 0%nat
     = Some [("machines", 0.4); ("buildings", 0.0); ("intangibles", 0.4)]
  /\ nums s' !! 4%nat
     = Some [("machines", 0.0); ("buildings", 0.0); ("intangibles", 0.0)]
  /\ nums s' !! 3%nat
     = Some [("machines", 0.015); ("buildings", 0.025); ("intangibles", 0.01)].
Proof.
  apply (@compute_outputs_frame ccc_formulas script_parameters
           0.043 4%nat 0.003 0.00 3%nat script_state); reflexivity.
Defined.

(** C9.  In every iteration the body of the loop is the body of the
    refactored function at the same two discount rates, which do not
    depend on the item; and [compute_outputs] is the refactored function
    that computes [r] and [r_prime] once before the loop. *)
Theorem compute_outputs_hoisted_eq {L : CCC} (g : globals) (u_s : R)
    (bonus_s : nat) (franchise_tax_rate tau_GR : R) (inv_tax_credit : nat) :
  (forall out_dict item,
     loop_body g u_s bonus_s franchise_tax_rate tau_GR inv_tax_credit
               out_dict item
     = loop_body_hoisted g u_s bonus_s franchise_tax_rate tau_GR
                         inv_tax_credit out_dict
                         (discount_rate g u_s) (after_tax_rate g) item) /\
  compute_outputs_hoisted g u_s bonus_s franchise_tax_rate tau_GR
                          inv_tax_credit
  = compute_outputs g u_s bonus_s franchise_tax_rate tau_GR inv_tax_credit.
Proof. split; [intros out_dict [k v]|]; reflexivity. Qed.




(** * Further properties *)

(** X1.  With no state income tax and no gross receipts tax, and a federal
    rate other than 1, [eq_coc_state] returns the federal cost of capital:
    the gross return over [1 - u_f], times one minus the credit and the
    federal allowance, plus the franchise rate, less depreciation.  The
    state allowance [z_s], a finite number, plays no part. *)
Theorem eq_coc_state_federal_only (delta z_f z_s w u_f itc pi r : R) :
  u_f <> 1 ->
  eq_coc_state delta z_f z_s w u_f 0 0 itc pi r
  = inr (((r - pi + delta) / (1 - u_f)) * (1 - itc - u_f * z_f) + w
         - delta).
Proof.
  intros Hf. rewrite eq_coc_state_inr by (split; lra).
  f_equal. unfold cost_of_capital.
  replace (1 - u_f - 0 + u_f * 0) with (1 - u_f) by lra.
  replace (1 - itc - u_f * z_f - 0 * z_s + u_f * 0 * z_s)
    with (1 - itc - u_f * z_f) by lra.
  replace (1 - 0) with 1 by lra. lra.
Qed.

Lemma eq_coc_state_federal_only_witness :
  eq_coc_state 0.1031 0.9 0.8 0.003 0.21 0 0 0.015 0.02 0.08
  = inr (((0.08 - 0.02 + 0.1031) / (1 - 0.21)) * (1 - 0.015 - 0.21 * 0.9)
         + 0.003 - 0.1031).
Proof. apply eq_coc_state_federal_only. lra. Defined.



(** X4.  Of two calls that differ in the franchise tax rate only, on the
    three asset types with recognized methods and complete arguments, a
    combined rate other than 1 and a gross receipts rate below 1: both
    return, and the one with the lower franchise rate stores for no asset
    type a higher cost of capital, whatever finite values the library
    computes. *)
Theorem franchise_rate_monotone {L : CCC} (g : globals) (u_s : R)
    (bonus_s : nat) (w w' tau_GR : R) (inv_tax_credit : nat) (s : state)
    (a1 a2 a3 : asset_data) (db di : dict R) (k : string) :
  well_configured s g bonus_s inv_tax_credit a1 a2 a3 db di ->
  k ∈ asset_types ->
  1 - u_f g - u_s + u_f g * u_s <> 0 -> tau_GR < 1 -> w' <= w ->
  exists out out' rho rho',
    evaluate g u_s bonus_s w tau_GR inv_tax_credit s = Some out /\
    evaluate g u_s bonus_s w' tau_GR inv_tax_credit s = Some out' /\
    output out k "rho" = Some rho /\
    output out' k "rho" = Some rho' /\
    rho' <= rho.
Proof.
  intros Hwc Hk HD Ht Hw.
  assert (Hn : divisors_nonzero (u_f g) u_s tau_GR) by (split; lra).
  destruct (well_configured_values _ _ _ _ _ _ _ _ _ Hwc)
    as (b1 & b2 & b3 & i1 & i2 & i3 & Hb1 & Hi1 & Hb2 & Hi2 & Hb3 & Hi3).
  rewrite !(well_configured_evaluate g bonus_s inv_tax_credit s a1 a2 a3
              db di b1 b2 b3 i1 i2 i3) by assumption.
  assert (Hd : forall a b_s itc,
            rho_of g u_s w' tau_GR a b_s itc
            <= rho_of g u_s w tau_GR a b_s itc).
  { intros a b_s itc. now apply cost_of_capital_franchise_le. }
  pattern k. apply (asset_types_cases k); [exact Hk|..].
  - do 4 eexists. repeat (split; [reflexivity|]). apply Hd.
  - do 4 eexists. repeat (split; [reflexivity|]). apply Hd.
  - do 4 eexists. repeat (split; [reflexivity|]). apply Hd.
Qed.

Lemma franchise_rate_monotone_witness :
  exists out out' rho rho',
    @evaluate ccc_formulas script_parameters 0.043 4 0.003 0.00 3
              script_state = Some out /\
    @evaluate ccc_formulas script_parameters 0.043 4 0.000 0.00 3
              script_state = Some out' /\
    output out "buildings" "rho" = Some rho /\
    output out' "buildings" "rho" = Some rho' /\
    rho' <= rho.
Proof.
  apply (@franchise_rate_monotone ccc_formulas script_parameters 0.043
           4%nat 0.003 0.000 0.00 3%nat script_state machines buildings
           intangibles _ _ "buildings" script_well_configured).
  - apply list_elem_of_further, list_elem_of_here.
  - cbn. lra.
  - lra.
  - lra.
Defined.

(** X5.  A call on the three asset types, with recognized methods,
    complete arguments and no zero divisor, returns a dictionary with the
    three asset types as keys, in the order machines, buildings,
    intangibles, that holds for each of them exactly the three entries
    rho, metr and eatr, in this order, where metr is
    [eq_metr(rho, r_prime, inflation_rate)] and eatr is
    [eq_eatr(rho, metr, profit_rate, u_f + u_s - u_f * u_s)] of the rho
    and metr stored beside them. *)
Theorem stored_entries {L : CCC} (g : globals) (u_s : R)
    (bonus_s : nat) (franchise_tax_rate tau_GR : R) (inv_tax_credit : nat)
    (s : state) (a1 a2 a3 : asset_data) (db di : dict R) (k : string) :
  well_configured s g bonus_s inv_tax_credit a1 a2 a3 db di ->
  1 - u_f g - u_s + u_f g * u_s <> 0 -> 1 - tau_GR <> 0 ->
  k ∈ asset_types ->
  let r_prime := calc_r_prime (nominal_int_rate g) (inflation_rate g)
                              (fraction_financed_w_debt g) (E g) in
  exists out rho,
    evaluate g u_s bonus_s franchise_tax_rate tau_GR inv_tax_credit s
    = Some out /\
    dict_keys out = ["machines"; "buildings"; "intangibles"] /\
    dict_get out k
    = Some [("rho", rho);
            ("metr", eq_metr rho r_prime (inflation_rate g));
            ("eatr",
             eq_eatr rho (eq_metr rho r_prime (inflation_rate g))
                     (profit_rate g) (u_f g + u_s - u_f g * u_s))].
Proof.
  intros Hwc HD Ht Hk r_prime.
  destruct (well_configured_values _ _ _ _ _ _ _ _ _ Hwc)
    as (b1 & b2 & b3 & i1 & i2 & i3 & Hb1 & Hi1 & Hb2 & Hi2 & Hb3 & Hi3).
  rewrite (well_configured_evaluate g bonus_s inv_tax_credit s a1 a2 a3
             db di b1 b2 b3 i1 i2 i3) by (assumption || now split).
  pattern k. apply (asset_types_cases k); [exact Hk|..];
    do 2 eexists; (split; [reflexivity|]); split; reflexivity.
Qed.

Lemma stored_entries_witness :
  let r_prime := calc_r_prime_formula 0.06 0.02 0.0 0.06 in
  exists out rho,
    @evaluate ccc_formulas script_parameters 0.043 4 0.003 0.00 3
              script_state = Some out /\
    dict_keys out = ["machines"; "buildings"; "intangibles"] /\
    dict_get out "intangibles"
    = Some [("rho", rho);
            ("metr", eq_metr_formula rho r_prime 0.02);
            ("eatr",
             eq_eatr_formula rho (eq_metr_formula rho r_prime 0.02)
                             0.2 (0.21 + 0.043 - 0.21 * 0.043))].
Proof.
  apply (@stored_entries ccc_formulas script_parameters 0.043 4%nat
           0.003 0.00 3%nat script_state machines buildings intangibles
           _ _ "intangibles" script_well_configured).
  - cbn. lra.
  - lra.
  - do 2 apply list_elem_of_further. apply list_elem_of_here.
Defined.

(** X6.  Calls do not interfere: after any call of [compute_outputs],
    whatever its arguments and whether it returned or raised, a call on
    the three asset types with recognized methods and complete arguments
    comes to what it would have come to before: the same value, or the
    same exception.  It returns a value when no divisor is zero. *)
Theorem calls_independent {L : CCC} (g : globals) (s : state)
    (u_s0 : R) (bonus_s0 : nat) (w0 tau0 : R) (inv_tax_credit0 : nat)
    (u_s : R) (bonus_s : nat) (franchise_tax_rate tau_GR : R)
    (inv_tax_credit : nat) (a1 a2 a3 : asset_data) (db di : dict R) :
  well_configured s g bonus_s inv_tax_credit a1 a2 a3 db di ->
  let s' := (compute_outputs g u_s0 bonus_s0 w0 tau0 inv_tax_credit0 s).2 in
  let call := compute_outputs g u_s bonus_s franchise_tax_rate tau_GR
                              inv_tax_credit in
  evaluate g u_s bonus_s franchise_tax_rate tau_GR inv_tax_credit s'
  = evaluate g u_s bonus_s franchise_tax_rate tau_GR inv_tax_credit s /\
  (forall e, (call s').1 = inl e <-> (call s).1 = inl e) /\
  (1 - u_f g - u_s + u_f g * u_s <> 0 -> 1 - tau_GR <> 0 ->
   exists out,
     evaluate g u_s bonus_s franchise_tax_rate tau_GR inv_tax_credit s
     = Some out /\
     evaluate g u_s bonus_s franchise_tax_rate tau_GR inv_tax_credit s'
     = Some out).
Proof.
  intros Hwc s' call.
  assert (Hwc' : well_configured s' g bonus_s inv_tax_credit a1 a2 a3 db di).
  { eapply in_call_well_configured; [|exact Hwc].
    apply compute_outputs_in_call. }
  destruct (well_configured_values _ _ _ _ _ _ _ _ _ Hwc)
    as (b1 & b2 & b3 & i1 & i2 & i3 & Hb1 & Hi1 & Hb2 & Hi2 & Hb3 & Hi3).
  assert (Hret : divisors_nonzero (u_f g) u_s tau_GR ->
            exists out,
              evaluate g u_s bonus_s franchise_tax_rate tau_GR
                       inv_tax_credit s = Some out /\
              evaluate g u_s bonus_s franchise_tax_rate tau_GR
                       inv_tax_credit s' = Some out).
  { intros Hn. eexists. split.
    - apply (well_configured_evaluate g bonus_s inv_tax_credit s a1 a2 a3
               db di b1 b2 b3 i1 i2 i3); assumption.
    - apply (well_configured_evaluate g bonus_s inv_tax_credit s' a1 a2 a3
               db di b1 b2 b3 i1 i2 i3); assumption. }
  destruct (eq_coc_state_cases 0 0 0 0 (u_f g) u_s tau_GR 0 0 0)
    as [[Hn _]|[Hn _]].
  - destruct (Hret Hn) as (out & H1 & H2).
    split; [now rewrite H1, H2|]. split; [|intros HD Ht; eauto].
    intros e. unfold call.
    rewrite (well_configured_run g bonus_s inv_tax_credit s a1 a2 a3
               db di b1 b2 b3 i1 i2 i3) by assumption.
    rewrite (well_configured_run g bonus_s inv_tax_credit s' a1 a2 a3
               db di b1 b2 b3 i1 i2 i3) by assumption.
    split; discriminate.
  - unfold evaluate, call.
    rewrite (well_configured_zero g bonus_s inv_tax_credit s a1 a2 a3
               db di u_s franchise_tax_rate tau_GR Hwc Hn).
    rewrite (well_configured_zero g bonus_s inv_tax_credit s' a1 a2 a3
               db di u_s franchise_tax_rate tau_GR Hwc' Hn).
    split; [reflexivity|]. split; [reflexivity|].
    intros HD Ht. destruct Hn. now split.
Qed.

Lemma calls_independent_witness :
  let s' := (@compute_outputs ccc_formulas script_parameters
               0.035 4 0.003 0.00 3 script_state).2 in
  exists out,
    @evaluate ccc_formulas script_parameters 0.043 4 0.000 0.00 3
              script_state = Some out /\
    @evaluate ccc_formulas script_parameters 0.043 4 0.000 0.00 3 s'
    = Some out.
Proof.
  apply (@calls_independent ccc_formulas script_parameters script_state
           0.035 4%nat 0.003 0.00 3%nat 0.043 4%nat 0.000 0.00 3%nat
           machines buildings intangibles _ _ script_well_configured).
  - cbn. lra.
  - lra.
Defined.

(** X7.  With an empty [depreciation_rates] the loop does not run: the
    call returns a new dictionary that maps the three asset types to empty
    dictionaries and prints nothing, whatever the arguments are. *)
Theorem no_asset_types {L : CCC} (g : globals) (u_s : R) (bonus_s : nat)
    (franchise_tax_rate tau_GR : R) (inv_tax_credit : nat) (s : state) :
  nums s !! depreciation_rates g = Some [] ->
  let res := compute_outputs g u_s bonus_s franchise_tax_rate tau_GR
                             inv_tax_credit s in
  res.1 = inr (length (refs s)) /\
  outputs_at res.2 (length (refs s))
  = Some [("machines", []); ("buildings", []); ("intangibles", [])] /\
  stdout res.2 = stdout s.
Proof.
  intros Hr res. subst res.
  rewrite (compute_outputs_enter _ _ _ _ _ _ _ _ Hr). cbn [for_each].
  split; [reflexivity|]. split.
  - apply outputs_at_running.
  - cbn. apply app_nil_r.
Qed.

(** A store whose [depreciation_rates] is empty. *)
Lemma no_asset_types_witness :
  let res := @compute_outputs ccc_formulas script_parameters
               0.043 4 0.003 0.00 3
               (mkState [[]; []; []; []; []] [[]] [] [] []) in
  res.1 = inr 0%nat /\
  outputs_at res.2 0
  = Some [("machines", []); ("buildings", []); ("intangibles", [])] /\
  stdout res.2 = [].
Proof.
  apply (@no_asset_types ccc_formulas script_parameters 0.043 4%nat
           0.003 0.00 3%nat (mkState [[]; []; []; []; []] [[]] [] [] [])).
  reflexivity.
Defined.

(** X8.  The method of an asset type is checked before the arguments are
    read for it, and the failed assertion ends the call at once: when the
    method of the first asset type is not recognized, the call prints the
    diagnostic and ends with [AssertionError] whatever the two argument
    dictionaries hold, and the three inner dictionaries it has allocated
    are still empty. *)
Theorem first_method_unrecognized {L : CCC} (g : globals) (u_s : R)
    (bonus_s : nat) (franchise_tax_rate tau_GR : R) (inv_tax_credit : nat)
    (s : state) (a1 a2 a3 : asset_data) (db di : dict R) :
  configuration s g a1 a2 a3 ->
  nums s !! bonus_s = Some db ->
  nums s !! inv_tax_credit = Some di ->
  a_method a1 <> "dbsl" -> a_method a1 <> "sl" ->
  let res := compute_outputs g u_s bonus_s franchise_tax_rate tau_GR
                             inv_tax_credit s in
  res.1 = inl AssertionError /\
  stdout res.2 = stdout s ++ ["Please enter one of: dbsl, sl"] /\
  nums res.2 = nums s ++ [[]; []; []].
Proof.
  intros [[dr [Hdr Hkeys]] H1 H2 H3] Hb Hi Hd Hs res. subst res.
  erewrite compute_outputs_run by eauto.
  rewrite outcome_of_invalid.
  - cbn. auto.
  - destruct (valid_method (a_method a1)) eqn:V; [|reflexivity].
    apply valid_method_true in V. tauto.
Qed.

Lemma first_method_unrecognized_witness :
  let s := mkState (nums script_state)
                   [[("machines", "ddb"); ("buildings", "sl");
                     ("intangibles", "sl")]] [] [] [] in
  let res := @compute_outputs ccc_formulas script_parameters
               0.043 4 0.003 0.00 3 s in
  res.1 = inl AssertionError /\
  stdout res.2 = [] ++ ["Please enter one of: dbsl, sl"] /\
  nums res.2 = nums script_state ++ [[]; []; []].
Proof.
  apply (@first_method_unrecognized ccc_formulas script_parameters
           0.043 4%nat 0.003 0.00 3%nat
           (mkState (nums script_state)
                    [[("machines", "ddb"); ("buildings", "sl");
                      ("intangibles", "sl")]] [] [] [])
           (mkAsset "ddb" 0.1031 7 0.4) buildings intangibles
           [("machines", 0.0); ("buildings", 0.0); ("intangibles", 0.0)]
           [("machines", 0.015); ("buildings", 0.025);
            ("intangibles", 0.01)]).
  - split.
    + eexists. split; reflexivity.
    + repeat split; [eexists; split; reflexivity|reflexivity..].
    + repeat split; [eexists; split; reflexivity|reflexivity..].
    + repeat split; [eexists; split; reflexivity|reflexivity..].
  - reflexivity.
  - reflexivity.
  - discriminate.
  - discriminate.
Defined.

(** X9.  A call leaves the results of earlier calls alone: whatever could
    be read at a location before the call, whatever the arguments and
    whether the call returns or raises, is read there after it; and the
    location a call returns is not one of these. *)
Theorem earlier_results_kept {L : CCC} (g : globals) (u_s : R)
    (bonus_s : nat) (franchise_tax_rate tau_GR : R) (inv_tax_credit : nat)
    (s : state) (o : nat) (d : dict (dict R)) :
  outputs_at s o = Some d ->
  let res := compute_outputs g u_s bonus_s franchise_tax_rate tau_GR
                             inv_tax_credit s in
  outputs_at res.2 o = Some d /\
  forall o', res.1 = inr o' -> o' <> o.
Proof.
  intros Ho res. split.
  - eapply in_call_outputs_at; [|exact Ho]. apply compute_outputs_in_call.
  - intros o' Hret. apply compute_outputs_returns in Hret as ->.
    unfold outputs_at in Ho.
    destruct (refs s !! o) eqn:E; [|discriminate].
    apply lookup_lt_Some in E. lia.
Qed.

Lemma earlier_results_kept_witness :
  let s := mkState [[("rho", 0.05)]] [] [[("machines", 0%nat)]] [] [] in
  let res := @compute_outputs ccc_formulas script_parameters
               0.043 4 0.003 0.00 3 s in
  outputs_at res.2 0 = Some [("machines", [("rho", 0.05)])] /\
  forall o', res.1 = inr o' -> o' <> 0%nat.
Proof.
  apply (@earlier_results_kept ccc_formulas script_parameters 0.043 4%nat
           0.003 0.00 3%nat
           (mkState [[("rho", 0.05)]] [] [[("machines", 0%nat)]] [] [])).
  reflexivity.
Defined.

(** X10.  Whatever the store and the arguments, a call prints nothing
    unless it ends with [AssertionError], and then it has printed the
    diagnostic once. *)
Theorem diagnostic_iff_assertion {L : CCC} (g : globals) (u_s : R)
    (bonus_s : nat) (franchise_tax_rate tau_GR : R) (inv_tax_credit : nat)
    (s : state) :
  let res := compute_outputs g u_s bonus_s franchise_tax_rate tau_GR
                             inv_tax_credit s in
  (res.1 = inl AssertionError /\
   stdout res.2 = stdout s ++ ["Please enter one of: dbsl, sl"]) \/
  (res.1 <> inl AssertionError /\ stdout res.2 = stdout s).
Proof.
  intros res. subst res.
  pose proof (prints_on_assertion_compute_outputs g u_s bonus_s
                franchise_tax_rate tau_GR inv_tax_credit s) as H.
  destruct (compute_outputs _ _ _ _ _ _ s) as [[[]|o] t]; cbn;
    (left; now split) || (right; now split).
Qed.

(** X11.  A [KeyError] of a call names a key of [depreciation_rates]: the
    asset type whose iteration missed it. *)
Theorem key_error_names_asset {L : CCC} (g : globals) (u_s : R)
    (bonus_s : nat) (franchise_tax_rate tau_GR : R) (inv_tax_credit : nat)
    (s : state) (d_rates : dict R) (k : string) :
  nums s !! depreciation_rates g = Some d_rates ->
  (compute_outputs g u_s bonus_s franchise_tax_rate tau_GR
                   inv_tax_credit s).1 = inl (KeyError k) ->
  k ∈ dict_keys d_rates.
Proof.
  intros Hr. rewrite (compute_outputs_enter _ _ _ _ _ _ _ _ Hr).
  apply (raises_key_in_bind (dict_keys d_rates)).
  - apply raises_key_in_for_each.
  - intros ?. apply raises_key_in_ret.
Qed.

Lemma key_error_names_asset_witness :
  "buildings" ∈ dict_keys [("machines", 0.1031); ("buildings", 0.0314);
                           ("intangibles", 0.33)].
Proof.
  apply (@key_error_names_asset ccc_formulas script_parameters 0.043 5%nat
           0.003 0.00 3%nat machines_only_state).
  - reflexivity.
  - apply machines_only_run.
Defined.

(** X12.  A call returns only if every key of [depreciation_rates] is one
    of the three asset types of [out_dict], has a recognized method, and
    is a key of the lives, of the federal bonus rates and of the two
    argument dictionaries. *)
Theorem returns_only_if_processable {L : CCC} (g : globals) (u_s : R)
    (bonus_s : nat) (franchise_tax_rate tau_GR : R) (inv_tax_credit : nat)
    (s : state) (d_rates d_lives d_fed d_bonus d_itc : dict R)
    (d_methods : dict string) (out : nat) (k : string) :
  objects s g bonus_s inv_tax_credit
          d_rates d_lives d_fed d_bonus d_itc d_methods ->
  (compute_outputs g u_s bonus_s franchise_tax_rate tau_GR
                   inv_tax_credit s).1 = inr out ->
  k ∈ dict_keys d_rates ->
  k ∈ asset_types /\
  (exists m, dict_get d_methods k = Some m /\ (m = "dbsl" \/ m = "sl")) /\
  has_key d_lives k = true /\ has_key d_fed k = true /\
  has_key d_bonus k = true /\ has_key d_itc k = true.
Proof.
  intros Hobj Hret Hk.
  pose proof (obj_rates _ _ _ _ _ _ _ _ _ _ Hobj) as Hr.
  rewrite (compute_outputs_enter _ _ _ _ _ _ _ _ Hr) in Hret.
  match type of Hret with
  | (?m ?t).1 = _ => destruct (m t) as [r t'] eqn:Hrun
  end.
  cbn in Hret. subst r.
  apply bind_inr_inv in Hrun as ([] & t1 & Hloop & _).
  exact (for_each_processable s g u_s bonus_s franchise_tax_rate tau_GR
           inv_tax_credit d_rates d_lives d_fed d_bonus d_itc d_methods
           d_rates Hobj _ _
           (running_in_call s _ [[]; []; []] [] eq_refl) Hloop k Hk).
Qed.

Lemma returns_only_if_processable_witness :
  "buildings" ∈ asset_types /\
  (exists m,
     dict_get [("machines", "dbsl"); ("buildings", "sl");
               ("intangibles", "sl")] "buildings" = Some m /\
     (m = "dbsl" \/ m = "sl")) /\
  has_key [("machines", 7); ("buildings", 39); ("intangibles", 3)]
          "buildings" = true /\
  has_key [("machines", 0.4); ("buildings", 0.0); ("intangibles", 0.4)]
          "buildings" = true /\
  has_key [("machines", 0.0); ("buildings", 0.0); ("intangibles", 0.0)]
          "buildings" = true /\
  has_key [("machines", 0.015); ("buildings", 0.025);
           ("intangibles", 0.01)] "buildings" = true.
Proof.
  apply (@returns_only_if_processable ccc_formulas script_parameters
           0.043 4%nat 0.003 0.00 3%nat script_state
           [("machines", 0.1031); ("buildings", 0.0314);
            ("intangibles", 0.33)]
           _ _ _ _ _ 0%nat "buildings").
  - split; reflexivity.
  - rewrite compute_outputs_script;
      [reflexivity|apply extends_refl|apply script_divisors; lra].
  - apply list_elem_of_further, list_elem_of_here.
Defined.
